(** * morningnews: the Columbus Dispatch morning-summary bot (src/bot.py)

    A shallow embedding of [ColumbusDispatchScraper]: link discovery,
    content extraction, the summariser with its retry loop and rule-based
    fallback, the markdown renderer and the pipeline entry point.

    Python [str] values are sequences of Unicode code points; they are
    modelled as [list N], so that [len], slicing and [in] count code points
    exactly as Python does. *)

From stdpp Require Import base list gmap sets strings.
From Stdlib Require Import ZArith NArith.

Local Open Scope N_scope.

(** ** Python strings *)

Module PyStr.

Definition pystr := list N.

(** An ASCII literal as a Python string. *)
Definition str (s : string) : pystr :=
  Ascii.N_of_ascii <$> String.list_ascii_of_string s.

Definition nl : pystr := [10].

(** [s.startswith(p)] *)
Fixpoint startswith (p s : pystr) : bool :=
  match p, s with
  | [], _ => true
  | _ :: _, [] => false
  | a :: p', b :: s' => (a =? b) && startswith p' s'
  end.

(** [needle in hay] *)
Fixpoint contains (needle hay : pystr) : bool :=
  startswith needle hay ||
  match hay with
  | [] => false
  | _ :: hay' => contains needle hay'
  end.

(** [sep.join(parts)] *)
Fixpoint join (sep : pystr) (parts : list pystr) : pystr :=
  match parts with
  | [] => []
  | [p] => p
  | p :: rest => p ++ sep ++ join sep rest
  end.

(** [str.isspace] on one code point: the characters [str.strip()] removes. *)
Definition is_space (c : N) : bool :=
  ((9 <=? c) && (c <=? 13)) || ((28 <=? c) && (c <=? 32)) ||
  (c =? 133) || (c =? 160) || (c =? 5760) ||
  ((8192 <=? c) && (c <=? 8202)) || (c =? 8232) || (c =? 8233) ||
  (c =? 8239) || (c =? 8287) || (c =? 12288).

Fixpoint lstrip (s : pystr) : pystr :=
  match s with
  | [] => []
  | c :: s' => if is_space c then lstrip s' else s
  end.

Definition rstrip (s : pystr) : pystr := reverse (lstrip (reverse s)).

(** [s.strip()] *)
Definition strip (s : pystr) : pystr := rstrip (lstrip s).

(** A string that neither starts nor ends with a space character. *)
Definition no_edge_space (s : pystr) : Prop :=
  match s with [] => True | c :: _ => is_space c = false end ∧
  match reverse s with [] => True | c :: _ => is_space c = false end.

(** ASCII part of [str.lower]. *)
Definition ascii_lower (c : N) : N :=
  if (65 <=? c) && (c <=? 90) then c + 32 else c.

(** [str(n)] for a non-negative integer. *)
Definition digit (d : nat) : N := 48 + N.of_nat d.

Fixpoint decimal_go (fuel n : nat) (acc : pystr) : pystr :=
  match fuel with
  | O => acc
  | S fuel' =>
      let acc' := digit (n mod 10) :: acc in
      if (n / 10 =? 0)%nat then acc' else decimal_go fuel' (n / 10) acc'
  end.

Definition decimal (n : nat) : pystr := decimal_go (S n) n [].

(** [str.lower()].  ASCII letters are folded by [ascii_lower]; for code
    points from 128 on, CPython consults its Unicode database (and, for
    capital sigma, the neighbouring characters).  That table is not part of
    the program, so it is a parameter: it receives the characters before
    the position, the code point, and the characters after it. *)
Section Lower.

Variable unicode_lower : pystr → N → pystr → pystr.

Definition lower_at (before : pystr) (c : N) (after : pystr) : pystr :=
  if c <? 128 then [ascii_lower c] else unicode_lower before c after.

Fixpoint lower_from (before s : pystr) : pystr :=
  match s with
  | [] => []
  | c :: s' => lower_at before c s' ++ lower_from (before ++ [c]) s'
  end.

Definition lower (s : pystr) : pystr := lower_from [] s.

End Lower.

End PyStr.
Import PyStr.

(** ** Markdown renderer: [convert_markdown_to_html] *)

Module Render.

(** [re.sub(pattern, repl, text)] for a pattern that cannot match the empty
    string: the text is scanned left to right, the leftmost match is replaced
    and scanning resumes after it.  A pattern is given by its matcher: told
    whether the position is at the start of a line (for [^] under
    [re.MULTILINE]) and given the text from the position on, it returns the
    replacement text and the number of characters matched.  [skip] counts
    the characters of the last match still to be passed over. *)
Definition matcher := bool → pystr → option (pystr * nat).

Fixpoint re_sub_go (m : matcher) (skip : nat) (bol : bool) (s : pystr) : pystr :=
  match s with
  | [] => []
  | c :: rest =>
      let bol' := c =? 10 in
      match skip with
      | S k => re_sub_go m k bol' rest
      | O =>
          match m bol s with
          | Some (repl, len) => repl ++ re_sub_go m (pred len) bol' rest
          | None => c :: re_sub_go m 0 bol' rest
          end
      end
  end.

Definition re_sub (m : matcher) (s : pystr) : pystr := re_sub_go m 0 true s.

(** [(.+)] : the longest run of characters other than newline. *)
Fixpoint dot_plus_greedy (s : pystr) : pystr :=
  match s with
  | [] => []
  | c :: s' => if c =? 10 then [] else c :: dot_plus_greedy s'
  end.

(** [(.+?)closer] : the shortest non-empty run of characters other than
    newline that is followed by [closer]; returns its length. *)
Fixpoint dot_plus_lazy (closer s : pystr) : option nat :=
  match s with
  | [] => None
  | c :: s' =>
      if c =? 10 then None
      else if startswith closer s' then Some 1%nat
      else S <$> dot_plus_lazy closer s'
  end.

(** [^#{n} (.+)$] with [re.MULTILINE], replaced by [<hn>\1</hn>]. *)
Definition header_re (hashes : pystr) (tag : pystr) : matcher := λ bol s,
  let opener := hashes ++ str " " in
  if bol && startswith opener s then
    let group := dot_plus_greedy (drop (length opener) s) in
    match group with
    | [] => None
    | _ =>
        Some (str "<" ++ tag ++ str ">" ++ group ++ str "</" ++ tag ++ str ">",
              (length opener + length group)%nat)
    end
  else None.

(** [delim(.+?)delim], replaced by [<tag>\1</tag>]. *)
Definition emphasis_re (delim : pystr) (tag : pystr) : matcher := λ _ s,
  if startswith delim s then
    let body := drop (length delim) s in
    match dot_plus_lazy delim body with
    | Some k =>
        Some (str "<" ++ tag ++ str ">" ++ take k body ++ str "</" ++ tag ++ str ">",
              (length delim + k + length delim)%nat)
    | None => None
    end
  else None.

(** A pattern without metacharacters; also [str.replace(old, new)] for a
    non-empty [old]. *)
Definition literal_re (old new : pystr) : matcher := λ _ s,
  if startswith old s then Some (new, length old) else None.

Definition replace (old new s : pystr) : pystr := re_sub (literal_re old new) s.

Definition convert_headers (text : pystr) : pystr :=
  let text := re_sub (header_re (str "###") (str "h3")) text in
  let text := re_sub (header_re (str "##") (str "h2")) text in
  re_sub (header_re (str "#") (str "h1")) text.

Definition convert_bold (text : pystr) : pystr :=
  re_sub (emphasis_re (str "**") (str "strong")) text.

Definition convert_italic (text : pystr) : pystr :=
  re_sub (emphasis_re (str "*") (str "em")) text.

(** Line breaks, paragraph boundaries and the enclosing paragraph. *)
Definition mark_paragraphs (text : pystr) : pystr :=
  let text := replace nl (str "<br>") text in
  let text := replace (str "<br><br>") (str "</p><p>") text in
  str "<p>" ++ text ++ str "</p>".

(** Clean up empty paragraphs. *)
Definition drop_empty_paragraphs (text : pystr) : pystr :=
  let text := replace (str "<p></p>") [] text in
  replace (str "<p><br></p>") [] text.

Definition convert_paragraphs (text : pystr) : pystr :=
  drop_empty_paragraphs (mark_paragraphs text).

Definition convert_markdown_to_html (text : pystr) : pystr :=
  convert_paragraphs (convert_italic (convert_bold (convert_headers text))).

(** Number of paragraph elements of a fragment: occurrences of [<p>]. *)
Fixpoint count_occ_str (needle hay : pystr) : nat :=
  match hay with
  | [] => 0%nat
  | _ :: hay' =>
      ((if startswith needle hay then 1 else 0) + count_occ_str needle hay')%nat
  end.

End Render.
Import Render.

(** ** Parsed HTML: the part of BeautifulSoup the program uses *)

Module Soup.

#[local] Set Warnings "-register-all".

(** A parsed document is a forest of nodes.  [Comment] stands for the string
    kinds that [get_text] leaves out. *)
Inductive node :=
| NavigableString (s : pystr)
| Comment (s : pystr)
| Tag (name : pystr) (attrs : list (pystr * pystr)) (children : list node).

Definition soup := list node.

(** [tag.get(key)] *)
Fixpoint attr_get (key : pystr) (attrs : list (pystr * pystr)) : option pystr :=
  match attrs with
  | [] => None
  | (k, v) :: rest => if decide (k = key) then Some v else attr_get key rest
  end.

(** Every node below [n], in document order, with its chain of enclosing
    tags (innermost first). *)
Fixpoint walk (ancestors : list node) (n : node) : list (list node * node) :=
  (ancestors, n) ::
  match n with
  | Tag _ _ children => flat_map (walk (n :: ancestors)) children
  | _ => []
  end.

Definition nodes (doc : soup) : list (list node * node) := flat_map (walk []) doc.

(** The text strings below a node, in document order. *)
Fixpoint all_strings (n : node) : list pystr :=
  match n with
  | NavigableString s => [s]
  | Comment _ => []
  | Tag _ _ children => flat_map all_strings children
  end.

(** [tag.get_text(strip=True)]: every string is stripped, empty ones are
    dropped, the rest are concatenated. *)
Definition stripped_strings (n : node) : list pystr :=
  filter (λ s, s ≠ []) (strip <$> all_strings n).

Definition get_text_strip (n : node) : pystr := concat (stripped_strings n).

Definition is_tag (name : pystr) (n : node) : bool :=
  match n with
  | Tag name' _ _ => bool_decide (name' = name)
  | _ => false
  end.

Definition node_attr (key : pystr) (n : node) : option pystr :=
  match n with
  | Tag _ attrs _ => attr_get key attrs
  | _ => None
  end.

(** [soup.find_all(name)] *)
Definition find_all (name : pystr) (doc : soup) : list node :=
  filter (λ n, is_tag name n = true) (snd <$> nodes doc).

(** [soup.find_all(name, href=True)]: only tags that carry the attribute. *)
Definition find_all_with_attr (name key : pystr) (doc : soup) : list node :=
  filter (λ n, is_Some (node_attr key n)) (find_all name doc).

(** Whitespace-separated words of an attribute value, as for [class]. *)
Fixpoint words_go (cur : pystr) (s : pystr) : list pystr :=
  match s with
  | [] => match cur with [] => [] | _ => [reverse cur] end
  | c :: s' =>
      if is_space c
      then match cur with [] => words_go [] s' | _ => reverse cur :: words_go [] s' end
      else words_go (c :: cur) s'
  end.

Definition words (s : pystr) : list pystr := words_go [] s.

Definition has_class (cls : pystr) (n : node) : bool :=
  match node_attr (str "class") n with
  | Some v => bool_decide (cls ∈ words v)
  | None => false
  end.

(** CSS selectors of the two shapes the program uses: [tag] or [tag.class],
    alone or as [ancestor descendant]. *)
Record compound := { sel_tag : pystr; sel_class : option pystr }.

Inductive selector :=
| Simple (c : compound)
| Descendant (outer inner : compound).

Definition matches (c : compound) (n : node) : bool :=
  is_tag (sel_tag c) n &&
  match sel_class c with
  | Some cls => has_class cls n
  | None => true
  end.

(** [soup.select(selector)]: matching elements in document order. *)
Definition select (sel : selector) (doc : soup) : list node :=
  match sel with
  | Simple c => filter (λ n, matches c n = true) (snd <$> nodes doc)
  | Descendant outer inner =>
      snd <$> filter (λ an, matches inner (snd an) = true ∧
                            existsb (matches outer) (fst an) = true) (nodes doc)
  end.

End Soup.
Import Soup.

(** ** Effects: what a run does to the outside world *)

Module Effects.

Inductive level := INFO | WARNING | ERROR.

(** The methods of [ColumbusDispatchScraper]. *)
Inductive method :=
| m_scrape_articles | m_get_article_content | m_summarize_with_deepseek
| m_create_fallback_summary | m_convert_markdown_to_html
| m_create_beautiful_email | m_send_email | m_run_daily_summary.

(** Observable steps of a run, in the order they happen: log records,
    [requests.get(url, timeout)], [requests.post(url, json, timeout)] (the
    user message of the payload is recorded), [time.sleep(secs)],
    [resend.Emails.send], and the entry into a method. *)
Inductive event :=
| Log (l : level) (msg : pystr)
| HttpGet (url : pystr) (timeout : Z)
| HttpPost (url : pystr) (user_message : pystr) (timeout : Z)
| Sleep (secs : Z)
| ResendSend (from to subject html : pystr)
| Call (m : method).

(** A computation yields its value and the events it performed. *)
Definition M (A : Type) : Type := A * list event.

#[global] Instance M_ret : MRet M := λ A x, (x, []).
#[global] Instance M_bind : MBind M := λ A B f m,
  let '(a, t1) := m in let '(b, t2) := f a in (b, t1 ++ t2).

Definition emit (e : event) : M unit := (tt, [e]).
Definition value {A} (m : M A) : A := fst m.
Definition trace {A} (m : M A) : list event := snd m.

(** A value decoded from JSON, as far as the program tells values apart:
    a string, or something that is not a string (given by its JSON text
    where it has one).  The program never looks inside the latter. *)
Inductive py_value :=
| PyStr (s : pystr)
| PyNone
| PyBool (b : bool)
| PyNumber (json : pystr)
| PyList (json : pystr)
| PyDict (json : pystr).

(** Exceptions that leave a method of the scraper. *)
Inductive exception := TypeError.

(** How a call that may raise ends. *)
Inductive outcome (A : Type) :=
| Returned (a : A)
| Raised (e : exception).
Arguments Returned {A} a.
Arguments Raised {A} e.

(** What the outside world answers.  A [requests.get] followed by
    [raise_for_status] and parsing either raises (with the exception's text)
    or gives a parsed page.  A call of the chat endpoint ends in one of the
    three [except] clauses of the retry loop or reaches the [return]: it
    then yields whatever [result['choices'][0]['message']['content']] is,
    string or not, since the program does not check it.  The mail service
    raises or returns a dict that may hold an id. *)
Inductive fetched := FetchError (e : pystr) | Page (doc : soup).

Inductive api_result :=
| ApiTimeout                      (* requests.exceptions.Timeout *)
| ApiRequestError (e : pystr)     (* other RequestException: network, HTTP
                                     status, a body that is not JSON *)
| ApiUnexpected (e : pystr)       (* any other Exception: KeyError, IndexError
                                     or TypeError on indexing the answer *)
| ApiOk (content : py_value).     (* choices[0].message.content *)

Inductive send_result := SendError (e : pystr) | SendOk (id : option pystr).

(** The places where the program reads the clock: [datetime.now()] with
    its format at lines 190, 261, 404 and 419.  Each is reached at most once
    in a run, and the answers may differ from place to place. *)
Inductive clock_read := fallback_date | email_date | email_time | subject_date.

Record world := {
  http_get : pystr → fetched;
  chat_completion : nat → api_result;   (* by attempt number *)
  emails_send : pystr → send_result;
  now : clock_read → pystr;             (* datetime.now().strftime(...) *)
}.

Definition is_failure (r : api_result) : bool :=
  match r with ApiOk _ => false | _ => true end.

(** Network requests and sleeps, the rest (logs, calls) left out. *)
Definition is_io (e : event) : bool :=
  match e with
  | HttpGet _ _ | HttpPost _ _ _ | Sleep _ | ResendSend _ _ _ _ => true
  | _ => false
  end.

Definition io_events (t : list event) : list event := List.filter is_io t.

(** Steps that belong to the summariser, the renderer or the sending of the
    e-mail. *)
Definition downstream (e : event) : bool :=
  match e with
  | HttpPost _ _ _ | ResendSend _ _ _ _
  | Call m_summarize_with_deepseek | Call m_create_fallback_summary
  | Call m_convert_markdown_to_html | Call m_create_beautiful_email
  | Call m_send_email => true
  | _ => false
  end.

End Effects.
Import Effects.

(** ** The scraper *)

Record article := { title : pystr; url : pystr; content : pystr }.

Record scraper := {
  deepseek_api_key : pystr;
  resend_api_key : pystr;
  from_email : pystr;
  to_email : pystr;
}.

Definition base_url : pystr := str "https://www.dispatch.com".

Definition api_url : pystr := str "https://api.deepseek.com/v1/chat/completions".

(** The fixed text of the e-mail page around the interpolated parts (style
    sheet, banner, footer). *)
Record email_template := {
  head_before_date : pystr;
  head_before_summary : pystr;
  head_after_summary : pystr;
  foot_before_time : pystr;
  foot_after_time : pystr;
}.

Section Bot.

Variable unicode_lower : pystr → N → pystr → pystr.
Variable tpl : email_template.
Variable self : scraper.

Abbreviation lower := (PyStr.lower unicode_lower).

(** [any(word in text for word in words)] *)
Definition any_in (keywords : list pystr) (text : pystr) : bool :=
  existsb (λ word, contains word text) keywords.

(** *** [scrape_articles]: link discovery (lines 45-68) *)

Definition href_keywords : list pystr :=
  [str "/story/"; str "/news/"; str "/sports/"; str "/business/"].

Record link_state := {
  articles : list article;
  processed_urls : gset pystr;
}.

(** One turn of the loop over the anchors. *)
Definition scan_link (max_articles : Z) (st : link_state) (link : node) : link_state :=
  match node_attr (str "href") link with
  | None | Some [] => st
  | Some href =>
      if any_in href_keywords (lower href) then
        let full_url := if startswith (str "/") href then base_url ++ href else href in
        if bool_decide (full_url ∉ processed_urls st)
           && (Z.of_nat (length (articles st)) <? max_articles)%Z
        then
          let title := get_text_strip link in
          if bool_decide (title ≠ []) && (10 <? length title)%nat then
            {| articles := articles st ++ [{| title := title; url := full_url; content := [] |}];
               processed_urls := processed_urls st ∪ {[full_url]} |}
          else st
        else st
      else st
  end.

(** The loop over a list of anchors, from no article and no URL seen. *)
Definition scan_links (max_articles : Z) (links : list node) : link_state :=
  foldl (scan_link max_articles) {| articles := []; processed_urls := ∅ |} links.

(** [soup.find_all('a', href=True)] and the loop. *)
Definition extract_links (max_articles : Z) (doc : soup) : list article :=
  articles (scan_links max_articles (find_all_with_attr (str "a") (str "href") doc)).

(** *** [get_article_content] *)

Definition content_selectors : list selector :=
  [Simple {| sel_tag := str "div"; sel_class := Some (str "article-body") |};
   Simple {| sel_tag := str "div"; sel_class := Some (str "story-body") |};
   Simple {| sel_tag := str "div"; sel_class := Some (str "entry-content") |};
   Descendant {| sel_tag := str "article"; sel_class := None |}
              {| sel_tag := str "p"; sel_class := None |};
   Descendant {| sel_tag := str "div"; sel_class := Some (str "content") |}
              {| sel_tag := str "p"; sel_class := None |}].

(** The loop over the selectors: the first one with elements sets
    [content] and breaks; with none, [content] stays empty. *)
Fixpoint select_content (selectors : list selector) (doc : soup) : pystr :=
  match selectors with
  | [] => []
  | selector :: rest =>
      match select selector doc with
      | [] => select_content rest doc
      | elements => join (str " ") (get_text_strip <$> elements)
      end
  end.

Definition paragraph_scan (doc : soup) : pystr :=
  join (str " ") (get_text_strip <$> take 10 (find_all (str "p") doc)).

Definition page_content (doc : soup) : pystr :=
  let content := select_content content_selectors doc in
  let content := match content with [] => paragraph_scan doc | _ => content end in
  take 2000 content.

Definition get_article_content (w : world) (url : pystr) : M pystr :=
  emit (Call m_get_article_content);;
  emit (HttpGet url 10);;
  match http_get w url with
  | Page doc => mret (page_content doc)
  | FetchError e =>
      emit (Log ERROR (str "Error getting article content from " ++ url ++ str ": " ++ e));;
      mret []
  end.

(** *** [scrape_articles] as a whole *)

(** One turn of the loop over the articles.  [get_article_content] catches
    its own exceptions, so the [except] clause of the loop is never taken. *)
Definition fill_content (w : world) (a : article) : M article :=
  c ← get_article_content w (url a);
  emit (Sleep 1);;
  mret {| title := title a; url := url a; content := c |}.

Definition scrape_articles (w : world) (max_articles : Z) : M (list article) :=
  emit (Call m_scrape_articles);;
  emit (HttpGet base_url 10);;
  match http_get w base_url with
  | Page doc => mapM (fill_content w) (extract_links max_articles doc)
  | FetchError e =>
      emit (Log ERROR (str "Error scraping articles: " ++ e));;
      mret []
  end.

(** *** [create_fallback_summary] *)

(** The non-ASCII characters of the literals are those of the source file. *)
Definition fallback_header (today : pystr) : pystr :=
  str "Good morning, Columbus! " ++ [8218; 242; 196; 212; 8719; 232] ++ nl ++ nl ++
  str "While our AI summarizer is taking a coffee break, here's what's happening in our city today ("
    ++ today ++ str "):" ++ nl ++ nl ++
  [63743; 252; 236; 8734] ++ str " <strong>Top Stories from The Columbus Dispatch:</strong>" ++ nl ++ nl.

Definition fallback_footer : pystr :=
  str "Stay informed, stay connected, and have a wonderful day in Columbus! "
    ++ [63743; 252; 229; 220] ++ str "<br><br>" ++ nl ++ nl ++
  str "Check out the full articles below for all the details.".

Definition local_keywords : list pystr :=
  [str "columbus"; str "ohio"; str "local"; str "city"; str "county"].
Definition sports_keywords : list pystr :=
  [str "sports"; str "game"; str "team"; str "player"; str "score"].
Definition business_keywords : list pystr :=
  [str "business"; str "economy"; str "market"; str "company"].

(** The [categories] dict: its keys in insertion order, each with the list
    of titles. *)
Definition categories_dict := list (pystr * list pystr).

Definition categories_init : categories_dict :=
  [(str "Local News", []); (str "Sports", []); (str "Business", []); (str "Other", [])].

(** [categories[key].append(x)] *)
Fixpoint dict_append (key : pystr) (x : pystr) (d : categories_dict) : categories_dict :=
  match d with
  | [] => []
  | (k, titles) :: rest =>
      if decide (k = key) then (k, titles ++ [x]) :: rest
      else (k, titles) :: dict_append key x rest
  end.

(** The category whose list receives the title: the [if]/[elif] chain. *)
Definition category_of (title : pystr) : pystr :=
  let title_lower := lower title in
  if any_in local_keywords title_lower then str "Local News"
  else if any_in sports_keywords title_lower then str "Sports"
  else if any_in business_keywords title_lower then str "Business"
  else str "Other".

Definition categorize (articles : list article) : categories_dict :=
  foldl (λ categories a, dict_append (category_of (title a)) (title a) categories)
        categories_init (take 8 articles).

Definition section_heading (category : pystr) : pystr :=
  nl ++ [63743; 252; 232; 8721; 212; 8719; 232] ++ str " <strong>" ++ category
     ++ str ":</strong><br>" ++ nl.

Definition bullet (title : pystr) : pystr :=
  [8218; 196; 162] ++ str " " ++ title ++ str "<br>" ++ nl.

(** One turn of the loop over [categories.items()]. *)
Definition add_section (summary : pystr) (item : pystr * list pystr) : pystr :=
  let '(category, titles) := item in
  match titles with
  | [] => summary
  | _ =>
      let summary := summary ++ section_heading category in
      let summary := foldl (λ s title, s ++ bullet title) summary (take 3 titles) in
      summary ++ str "<br>" ++ nl
  end.

Definition create_fallback_summary (today : pystr) (articles : list article) : pystr :=
  foldl add_section (fallback_header today) (categorize articles) ++ fallback_footer.

(** *** [summarize_with_deepseek] *)

Definition content_for_summary (articles : list article) : pystr :=
  concat (imap (λ i a, nl ++ nl ++ str "Article " ++ decimal (S i) ++ str ": " ++ title a
                        ++ nl ++ take 500 (content a)) articles).

Definition user_message (articles : list article) : pystr :=
  str "Please create a warm, engaging morning summary of these Columbus Dispatch articles. Group similar topics together and highlight what matters most to Columbus residents. Keep it informative but uplifting:"
    ++ nl ++ content_for_summary articles.

Definition attempt_label (attempt : nat) : pystr := decimal (attempt + 1).

(** What an [except] clause does: log, sleep unless it was the last
    attempt, and go on with the loop. *)
Definition after_failure (l : level) (msg : pystr) (attempt : nat) : M unit :=
  emit (Log l msg);;
  if (attempt <? 2)%nat then emit (Sleep 5) else mret tt.

(** The body of [for attempt in range(3)]: [Some summary] is the [return]
    inside the loop, [None] is the loop running to its end. *)
Fixpoint attempt_loop (w : world) (message : pystr) (attempts : list nat)
  : M (option py_value) :=
  match attempts with
  | [] => mret None
  | attempt :: rest =>
      let timeout := (30 + Z.of_nat attempt * 15)%Z in
      emit (Log INFO (str "Attempting DeepSeek API call (attempt " ++ attempt_label attempt
                        ++ str "/3, timeout: " ++ decimal (Z.to_nat timeout) ++ str "s)"));;
      emit (HttpPost api_url message timeout);;
      match chat_completion w attempt with
      | ApiOk summary =>
          emit (Log INFO (str "Successfully generated summary with DeepSeek API"));;
          mret (Some summary)
      | ApiTimeout =>
          after_failure WARNING
            (str "DeepSeek API timeout on attempt " ++ attempt_label attempt) attempt;;
          attempt_loop w message rest
      | ApiRequestError e =>
          after_failure ERROR
            (str "DeepSeek API request error on attempt " ++ attempt_label attempt
               ++ str ": " ++ e) attempt;;
          attempt_loop w message rest
      | ApiUnexpected e =>
          after_failure ERROR
            (str "Unexpected error with DeepSeek API on attempt " ++ attempt_label attempt
               ++ str ": " ++ e) attempt;;
          attempt_loop w message rest
      end
  end.

Definition summarize_with_deepseek (w : world) (articles : list article) : M py_value :=
  emit (Call m_summarize_with_deepseek);;
  r ← attempt_loop w (user_message articles) (seq 0 3);
  match r with
  | Some summary => mret summary
  | None =>
      emit (Log WARNING (str "All DeepSeek API attempts failed, creating basic summary from titles"));;
      emit (Call m_create_fallback_summary);;
      mret (PyStr (create_fallback_summary (now w fallback_date) articles))
  end.

(** *** [create_beautiful_email], [send_email], [run_daily_summary] *)

Definition dquote : pystr := [34].

Definition article_item (a : article) : pystr :=
  nl ++ str "                    <div class=" ++ dquote ++ str "article-item" ++ dquote ++ str ">" ++
  nl ++ str "                        <div class=" ++ dquote ++ str "article-title" ++ dquote ++ str ">" ++
  nl ++ str "                            <a href=" ++ dquote ++ url a ++ dquote ++ str " target=" ++ dquote
     ++ str "_blank" ++ dquote ++ str ">" ++ title a ++ str "</a>" ++
  nl ++ str "                        </div>" ++
  nl ++ str "                    </div>" ++
  nl ++ str "            ".

(** The page, for a summary that is a string. *)
Definition email_page (w : world) (summary : pystr) (articles : list article) : pystr :=
  head_before_date tpl ++ now w email_date ++ head_before_summary tpl
  ++ convert_markdown_to_html summary ++ head_after_summary tpl
  ++ concat (article_item <$> take 8 articles)
  ++ foot_before_time tpl ++ now w email_time ++ foot_after_time tpl.

(** [re.sub] raises [TypeError] on a text that is not a string, so
    [convert_markdown_to_html], called while the first part of the page is
    formatted, raises on such a summary and so does this method. *)
Definition create_beautiful_email (w : world) (summary : py_value) (articles : list article)
  : M (outcome pystr) :=
  emit (Call m_create_beautiful_email);;
  emit (Call m_convert_markdown_to_html);;
  match summary with
  | PyStr text => mret (Returned (email_page w text articles))
  | _ => mret (Raised TypeError)
  end.

Definition email_subject (w : world) : pystr :=
  [63743; 252; 229; 214] ++ str " Your Columbus Morning Brief - " ++ now w subject_date.

Definition send_email (w : world) (html_content : pystr) : M unit :=
  emit (Call m_send_email);;
  emit (ResendSend (from_email self) (to_email self) (email_subject w) html_content);;
  match emails_send w html_content with
  | SendOk id =>
      emit (Log INFO (str "Email sent successfully! Resend ID: " ++ default (str "N/A") id))
  | SendError e =>
      emit (Log ERROR (str "Error sending email with Resend: " ++ e))
  end.

(** The method has no [try]: an exception of [create_beautiful_email]
    leaves it at once. *)
Definition run_daily_summary (w : world) : M (outcome unit) :=
  emit (Call m_run_daily_summary);;
  emit (Log INFO (str "Starting Columbus Dispatch morning summary..."));;
  articles ← scrape_articles w 10;
  match articles with
  | [] => emit (Log WARNING (str "No articles found"));; mret (Returned tt)
  | _ =>
      emit (Log INFO (str "Found " ++ decimal (length articles) ++ str " articles"));;
      summary ← summarize_with_deepseek w articles;
      page ← create_beautiful_email w summary articles;
      match page with
      | Returned html_content =>
          send_email w html_content;;
          emit (Log INFO (str "Daily summary completed!"));;
          mret (Returned tt)
      | Raised e => mret (Raised e)
      end
  end.

(** ** Notions of the specification

    The terms in which the specification speaks about the code above. *)

(** Link extraction: a candidate is an anchor whose href contains a path
    marker; it comes with its visible text and its resolved URL. *)
Definition resolve (href : pystr) : pystr :=
  if startswith (str "/") href then base_url ++ href else href.

Definition candidate_of (link : node) : option (pystr * pystr) :=
  match node_attr (str "href") link with
  | Some href =>
      if any_in href_keywords (lower href)
      then Some (get_text_strip link, resolve href) else None
  | None => None
  end.

Definition candidates (doc : soup) : list (pystr * pystr) :=
  omap candidate_of (find_all_with_attr (str "a") (str "href") doc).

Definition entry (a : article) : pystr * pystr := (title a, url a).

(** The invariant of the scanning loop, [cands] being the candidates met so far. *)
Definition link_inv (max_articles : Z) (cands : list (pystr * pystr)) (st : link_state) : Prop :=
  NoDup (url <$> articles st) ∧
  (∀ u, u ∈ processed_urls st ↔ u ∈ url <$> articles st) ∧
  (Z.of_nat (length (articles st)) ≤ Z.max 0 max_articles)%Z ∧
  Forall (λ a, (10 < length (title a))%nat ∧ strip (title a) = title a) (articles st) ∧
  sublist (entry <$> articles st) cands.

(** An absolute URL starts with a scheme and a colon (RFC 3986, section 3.1:
    a letter, then letters, digits, [+], [-] or [.]). *)
Definition is_alpha (c : N) : bool :=
  ((65 <=? c) && (c <=? 90)) || ((97 <=? c) && (c <=? 122)).

Definition is_scheme_char (c : N) : bool :=
  is_alpha c || ((48 <=? c) && (c <=? 57)) || (c =? 43) || (c =? 45) || (c =? 46).

Fixpoint scheme_rest (s : pystr) : bool :=
  match s with
  | [] => false
  | c :: s' => if c =? 58 then true else is_scheme_char c && scheme_rest s'
  end.

Definition is_absolute_url (s : pystr) : bool :=
  match s with
  | [] => false
  | c :: s' => is_alpha c && scheme_rest s'
  end.

(** Content extraction: the elements of the first strategy that yields one
    or more of them. *)
Definition first_yielding (selectors : list selector) (doc : soup) : option (list node) :=
  head (filter (λ elements, elements ≠ []) ((λ sel, select sel doc) <$> selectors)).

Definition joined_text (elements : list node) : pystr :=
  join (str " ") (get_text_strip <$> elements).

(** What the specification's sentence on content extraction says of a page. *)
Definition content_as_specified (doc : soup) : Prop :=
  match first_yielding content_selectors doc with
  | Some elements => page_content doc = take 2000 (joined_text elements)
  | None => page_content doc = take 2000 (paragraph_scan doc)
  end.

(** Fallback summary: the categories with their keywords, and what it means
    for one to match a title. *)
Definition local_rule := (str "Local News", local_keywords).
Definition sports_rule := (str "Sports", sports_keywords).
Definition business_rule := (str "Business", business_keywords).

Definition keyword_match (title keyword : pystr) : Prop :=
  ∃ before after, lower title = before ++ keyword ++ after.

Definition rule_matches (title : pystr) (rule : pystr * list pystr) : Prop :=
  Exists (keyword_match title) (snd rule).

Definition category_order : list pystr :=
  [str "Local News"; str "Sports"; str "Business"; str "Other"].

(** The dict with the given lists under its four keys. *)
Definition dict_of (l1 l2 l3 l4 : list pystr) : categories_dict :=
  [(str "Local News", l1); (str "Sports", l2); (str "Business", l3); (str "Other", l4)].

(** The titles of the first 8 articles that fall into a category. *)
Definition in_category (category : pystr) (titles : list pystr) : list pystr :=
  filter (λ t, category_of t = category) titles.

Definition titles_in (category : pystr) (articles : list article) : list pystr :=
  in_category category (title <$> take 8 articles).


(** ** Sample inputs *)

Definition demo_page : soup :=
  [Tag (str "html") []
     [Tag (str "body") []
        [Tag (str "div") [(str "class", str "lead  article-body")]
           [NavigableString (str "  Hello "); Tag (str "b") [] [NavigableString (str " world ")]];
         Comment (str "x");
         Tag (str "article") [] [Tag (str "span") [] [Tag (str "p") [] [NavigableString (str "In article")]]];
         Tag (str "p") [] [NavigableString (str " Outside")]]]].

Definition two_paragraphs : pystr :=
  str "**Hello** *world*" ++ nl ++ nl ++ str "Second para".

Definition four_newlines : pystr := nl ++ nl ++ nl ++ nl.

(** [<a href="sports/story/2024/buckeyes.html">Buckeyes win the title</a>] *)
Definition relative_link_page : soup :=
  [Tag (str "html") []
     [Tag (str "body") []
        [Tag (str "a") [(str "href", str "sports/story/2024/buckeyes.html")]
           [NavigableString (str "Buckeyes win the title")]]]].

(** [<a href="/sports/story/2024/buckeyes.html">Buckeyes win the title</a>] *)
Definition rooted_link_page : soup :=
  [Tag (str "html") []
     [Tag (str "body") []
        [Tag (str "a") [(str "href", str "/sports/story/2024/buckeyes.html")]
           [NavigableString (str "Buckeyes win the title")]]]].

(** [<div class="article-body"></div><p>Hello readers</p>] *)
Definition empty_body : node := Tag (str "div") [(str "class", str "article-body")] [].

Definition empty_body_page : soup :=
  [empty_body; Tag (str "p") [] [NavigableString (str "Hello readers")]].

(** A clock that stands still. *)
Definition sample_clock (r : clock_read) : pystr :=
  match r with
  | email_time => str "07:00 AM"
  | _ => str "November 03, 2026"
  end.

(** A world without network: every request fails. *)
Definition offline_world : world :=
  {| http_get := λ _, FetchError (str "connection refused");
     chat_completion := λ _, ApiTimeout;
     emails_send := λ _, SendError (str "connection refused");
     now := sample_clock |}.

(** A world whose home page is [relative_link_page]; the article request
    fails, as [requests.get] does on a URL without scheme. *)
Definition relative_link_world : world :=
  {| http_get := λ u, if decide (u = base_url) then Page relative_link_page
                      else FetchError (str "Invalid URL: No scheme supplied");
     chat_completion := λ _, ApiTimeout;
     emails_send := λ _, SendError (str "connection refused");
     now := sample_clock |}.

(** A Unicode table that leaves every character as it is. *)
Definition unchanged : pystr → N → pystr → pystr := λ _ c _, [c].

Definition no_template : email_template :=
  {| head_before_date := []; head_before_summary := []; head_after_summary := [];
     foot_before_time := []; foot_after_time := [] |}.

Definition some_scraper : scraper :=
  {| deepseek_api_key := str "key"; resend_api_key := str "key";
     from_email := str "onboarding@resend.dev"; to_email := str "reader@example.com" |}.

Definition two_articles : list article :=
  [{| title := str "Ohio State wins big game"; url := str "https://www.dispatch.com/sports/1";
      content := str "The Buckeyes won." |};
   {| title := str "Markets rally on earnings"; url := str "https://www.dispatch.com/business/2";
      content := [] |}].

(** A world where the home page has one article link, the first call of the
    chat endpoint times out and the second answers. *)
Definition online_world : world :=
  {| http_get := λ u, if decide (u = base_url) then Page rooted_link_page
                      else Page empty_body_page;
     chat_completion := λ n, match n with
                             | O => ApiTimeout
                             | _ => ApiOk (PyStr (str "**Good** morning"))
                             end;
     emails_send := λ _, SendOk (Some (str "id-1"));
     now := sample_clock |}.

Definition online_articles : list article :=
  [{| title := str "Buckeyes win the title";
      url := str "https://www.dispatch.com/sports/story/2024/buckeyes.html";
      content := str "Hello readers" |}].

(** A world like [online_world] whose chat endpoint answers every call with
    status 200 and the body [{"choices": [{"message": {"content": null}}]}]:
    the indexing at lines 161-162 succeeds and yields [None]. *)
Definition null_content_world : world :=
  {| http_get := λ u, if decide (u = base_url) then Page rooted_link_page
                      else Page empty_body_page;
     chat_completion := λ _, ApiOk PyNone;
     emails_send := λ _, SendOk (Some (str "id-1"));
     now := sample_clock |}.

(** The same with the [content] field missing from the answer: indexing it
    raises [KeyError], which the last [except] clause catches. *)
Definition missing_content_world : world :=
  {| http_get := λ u, if decide (u = base_url) then Page rooted_link_page
                      else Page empty_body_page;
     chat_completion := λ _, ApiUnexpected (str "'content'");
     emails_send := λ _, SendOk (Some (str "id-1"));
     now := sample_clock |}.

(** ** Further notions, for the properties beyond the specification's *)

(** Link extraction: a candidate qualifies when its text has more than 10
    characters; of several candidates with one URL the first is kept. *)
Definition qualifies (c : pystr * pystr) : bool :=
  bool_decide (fst c ≠ []) && (10 <? length (fst c))%nat.

Fixpoint first_by_url (seen : list pystr) (cands : list (pystr * pystr))
  : list (pystr * pystr) :=
  match cands with
  | [] => []
  | c :: rest =>
      if decide (snd c ∈ seen) then first_by_url seen rest
      else c :: first_by_url (snd c :: seen) rest
  end.

(** The content an article gets from the world. *)
Definition fetched_content (w : world) (u : pystr) : pystr :=
  match http_get w u with
  | Page doc => page_content doc
  | FetchError _ => []
  end.

(** Seconds a step may block: the timeout of a request, the length of a
    sleep. *)
Definition seconds (e : event) : Z :=
  match e with
  | HttpGet _ t | HttpPost _ _ t => t
  | Sleep s => s
  | _ => 0
  end.

Definition total_seconds (t : list event) : Z := foldr (λ e acc, seconds e + acc)%Z 0%Z t.

Definition is_post (e : event) : bool :=
  match e with HttpPost _ _ _ => true | _ => false end.

Definition is_send (e : event) : bool :=
  match e with ResendSend _ _ _ _ => true | _ => false end.

Definition is_sleep (e : event) : bool :=
  match e with Sleep _ => true | _ => false end.

(** The part of an article the prompt can show. *)
Definition prompt_view (a : article) : article :=
  {| title := title a; url := []; content := take 500 (content a) |}.

(** Characters the markdown rules react to. *)
Definition star : N := 42.
Definition hash : N := 35.
Definition lt_sign : N := 60.
Definition newline : N := 10.

(** Text without markup: no asterisk, no hash sign, no angle bracket. *)
Definition unmarked (s : pystr) : Prop :=
  Forall (λ c, c ≠ star ∧ c ≠ hash ∧ c ≠ lt_sign) s.

(** Unmarked text on one line. *)
Definition plain (s : pystr) : Prop := unmarked s ∧ Forall (λ c, c ≠ newline) s.

(** Whether the line start flag holds after a piece of text. *)
Definition bol_after (bol : bool) (l : pystr) : bool :=
  foldl (λ _ c, c =? 10) bol l.

(** A pattern that can only match at a given first character. *)
Definition needs_head (m : matcher) (h : N) : Prop :=
  ∀ bol c s, c ≠ h → m bol (c :: s) = None.

(** A pattern that does not look at the line start flag. *)
Definition ignores_bol (m : matcher) : Prop :=
  ∀ b1 b2 s, m b1 s = m b2 s.


(** * Properties *)

(** ** Sanity checks of the embedding *)

Example decimal_135 : decimal 135 = str "135".
Proof. reflexivity. Qed.

Example strip_example : strip (str "  a b  ") = str "a b".
Proof. reflexivity. Qed.

Example lower_example : lower (str "Ohio State") = str "ohio state".
Proof. reflexivity. Qed.

Example demo_select1 :
  get_text_strip <$> select (Simple {| sel_tag := str "div"; sel_class := Some (str "article-body") |}) demo_page
  = [str "Helloworld"].
Proof. vm_compute. reflexivity. Qed.

Example demo_select2 :
  get_text_strip <$> select (Descendant {| sel_tag := str "article"; sel_class := None |}
                                        {| sel_tag := str "p"; sel_class := None |}) demo_page
  = [str "In article"].
Proof. vm_compute. reflexivity. Qed.

Example demo_find_all :
  get_text_strip <$> find_all (str "p") demo_page = [str "In article"; str "Outside"].
Proof. vm_compute. reflexivity. Qed.

(** A whole run: the home page, the article page, a politeness sleep, a
    timed-out call, a sleep, a successful call, and the e-mail. *)
Example run_online :
  value (scrape_articles online_world 10) = online_articles ∧
  io_events (trace (run_daily_summary online_world))
  = [HttpGet base_url 10;
     HttpGet (str "https://www.dispatch.com/sports/story/2024/buckeyes.html") 10;
     Sleep 1;
     HttpPost api_url (user_message online_articles) 30;
     Sleep 5;
     HttpPost api_url (user_message online_articles) 45;
     ResendSend (from_email self) (to_email self) (email_subject online_world)
       (email_page online_world (str "**Good** morning") online_articles)].
Proof. split; vm_compute; reflexivity. Qed.

(** ** Strings *)

Section StringFacts.

Implicit Types s p needle hay : pystr.

Lemma startswith_spec p s : startswith p s = true ↔ ∃ post, s = p ++ post.
Proof.
  revert s. induction p as [|a p IH]; intros s; simpl.
  - split; [eauto|done].
  - destruct s as [|b s]; simpl.
    + split; [done|]. by intros [post ?].
    + rewrite andb_true_iff, N.eqb_eq, IH. split.
      * intros [-> [post ->]]. eauto.
      * intros [post [= -> ->]]. eauto.
Qed.

Lemma contains_spec needle hay :
  contains needle hay = true ↔ ∃ pre post, hay = pre ++ needle ++ post.
Proof.
  induction hay as [|c hay IH]; simpl.
  - rewrite orb_false_r, startswith_spec. split.
    + intros [post ->]. by exists [], post.
    + intros [pre [post H]]. destruct pre; simpl in H; [eauto|done].
  - rewrite orb_true_iff, startswith_spec, IH. split.
    + intros [[post ->]|[pre [post ->]]].
      * by exists [], post.
      * by exists (c :: pre), post.
    + intros [[|d pre] [post H]]; simpl in H.
      * left. eauto.
      * right. injection H as -> ->. eauto.
Qed.

Lemma lstrip_app_nonspace l c r :
  is_space c = false → lstrip (l ++ c :: r) = lstrip l ++ c :: r.
Proof.
  intros Hc. induction l as [|d l IH]; simpl.
  - by rewrite Hc.
  - destruct (is_space d); [done|]. done.
Qed.

Lemma lstrip_head s :
  match lstrip s with [] => True | c :: _ => is_space c = false end.
Proof.
  induction s as [|c s IH]; simpl; [done|].
  destruct (is_space c) eqn:E; [done|]. done.
Qed.

Lemma lstrip_fixed s :
  match s with [] => True | c :: _ => is_space c = false end → lstrip s = s.
Proof. destruct s as [|c s]; simpl; [done|]. by intros ->. Qed.

Lemma strip_no_edge_space s : no_edge_space (strip s).
Proof.
  unfold strip, rstrip. split.
  - pose proof (lstrip_head s) as Hh.
    destruct (lstrip s) as [|c u] eqn:E; [done|].
    rewrite reverse_cons, (lstrip_app_nonspace _ _ [] Hh).
    rewrite reverse_app. simpl. done.
  - rewrite reverse_involutive. apply lstrip_head.
Qed.

Lemma no_edge_space_strip s : no_edge_space s → strip s = s.
Proof.
  intros [H1 H2]. unfold strip, rstrip.
  rewrite (lstrip_fixed s H1), (lstrip_fixed _ H2). apply reverse_involutive.
Qed.

Lemma no_edge_space_concat (parts : list pystr) :
  Forall (λ p, p ≠ [] ∧ no_edge_space p) parts → no_edge_space (concat parts).
Proof.
  induction 1 as [|p parts [Hne [Hp1 Hp2]] _ [IH1 IH2]]; [done|].
  simpl. split.
  - destruct p; [done|]. done.
  - rewrite reverse_app. destruct (reverse (concat parts)) as [|d r] eqn:E; simpl.
    + done.
    + done.
Qed.

Lemma length_take_le {A} (n : nat) (l : list A) : (length (take n l) ≤ n)%nat.
Proof. rewrite length_take. lia. Qed.

End StringFacts.

(** ** Parsed HTML *)

Lemma get_text_strip_trimmed (n : node) : strip (get_text_strip n) = get_text_strip n.
Proof.
  apply no_edge_space_strip, no_edge_space_concat.
  unfold stripped_strings. apply Forall_forall. intros p Hp.
  apply list_elem_of_filter in Hp as [Hne Hp].
  apply list_elem_of_fmap in Hp as [s [-> _]].
  split; [done|]. apply strip_no_edge_space.
Qed.

(** ** The fallback summary *)

Lemma any_in_spec (keywords : list pystr) (text : pystr) :
  any_in keywords text = true ↔
  Exists (λ kw, ∃ before after, text = before ++ kw ++ after) keywords.
Proof.
  unfold any_in. rewrite existsb_exists, Exists_exists. split.
  - intros [kw [Hin H]]. exists kw. split; [by apply list_elem_of_In|].
    by apply contains_spec.
  - intros [kw [Hin H]]. exists kw. split; [by apply list_elem_of_In|].
    by apply contains_spec.
Qed.

Lemma any_in_rule (title : pystr) (rule : pystr * list pystr) :
  any_in (snd rule) (lower title) = true ↔ rule_matches title rule.
Proof. apply any_in_spec. Qed.

(** The [if]/[elif] chain picks the first rule, in priority order, one of
    whose keywords occurs in the lowercased title. *)
Lemma category_of_cases (t : pystr) :
  (category_of t = str "Local News" ↔ rule_matches t local_rule) ∧
  (category_of t = str "Sports" ↔
     ¬ rule_matches t local_rule ∧ rule_matches t sports_rule) ∧
  (category_of t = str "Business" ↔
     ¬ rule_matches t local_rule ∧ ¬ rule_matches t sports_rule ∧
     rule_matches t business_rule) ∧
  (category_of t = str "Other" ↔
     ¬ rule_matches t local_rule ∧ ¬ rule_matches t sports_rule ∧
     ¬ rule_matches t business_rule).
Proof.
  rewrite <- !any_in_rule. unfold category_of. simpl snd.
  destruct (any_in local_keywords _), (any_in sports_keywords _),
    (any_in business_keywords _);
    repeat split; try done; try (intros; exfalso; discriminate);
    try (intros (? & ?); done); try (intros (? & ? & ?); done).
Qed.

Lemma category_of_range (t : pystr) : category_of t ∈ category_order.
Proof.
  unfold category_of, category_order.
  repeat case_match; set_solver.
Qed.

Lemma dict_append_cases (x : pystr) (l1 l2 l3 l4 : list pystr) :
  dict_append (str "Local News") x (dict_of l1 l2 l3 l4) = dict_of (l1 ++ [x]) l2 l3 l4 ∧
  dict_append (str "Sports") x (dict_of l1 l2 l3 l4) = dict_of l1 (l2 ++ [x]) l3 l4 ∧
  dict_append (str "Business") x (dict_of l1 l2 l3 l4) = dict_of l1 l2 (l3 ++ [x]) l4 ∧
  dict_append (str "Other") x (dict_of l1 l2 l3 l4) = dict_of l1 l2 l3 (l4 ++ [x]).
Proof. repeat split; reflexivity. Qed.

Lemma in_category_cons (c t : pystr) (titles : list pystr) :
  in_category c (t :: titles) =
  (if decide (category_of t = c) then [t] else []) ++ in_category c titles.
Proof. unfold in_category. rewrite filter_cons. by case_decide. Qed.

Lemma categorize_loop (l : list article) (l1 l2 l3 l4 : list pystr) :
  foldl (λ categories a, dict_append (category_of (title a)) (title a) categories)
        (dict_of l1 l2 l3 l4) l
  = dict_of (l1 ++ in_category (str "Local News") (title <$> l))
            (l2 ++ in_category (str "Sports") (title <$> l))
            (l3 ++ in_category (str "Business") (title <$> l))
            (l4 ++ in_category (str "Other") (title <$> l)).
Proof.
  revert l1 l2 l3 l4. induction l as [|a l IH]; intros l1 l2 l3 l4.
  - simpl. unfold in_category. rewrite filter_nil, !app_nil_r. done.
  - rewrite fmap_cons, !in_category_cons. cbn [foldl].
    destruct (dict_append_cases (title a) l1 l2 l3 l4) as (E1 & E2 & E3 & E4).
    pose proof (category_of_range (title a)) as Hr. unfold category_order in Hr.
    rewrite !elem_of_cons, elem_of_nil in Hr.
    destruct Hr as [Hc|[Hc|[Hc|[Hc|[]]]]]; rewrite !Hc;
      [rewrite E1|rewrite E2|rewrite E3|rewrite E4]; rewrite IH;
      repeat (case_decide; [|try done]); try discriminate;
      by rewrite ?app_nil_l, <- ?app_assoc.
Qed.

Lemma categorize_spec (articles : list article) :
  categorize articles = (λ c, (c, titles_in c articles)) <$> category_order.
Proof.
  unfold categorize. change categories_init with (dict_of [] [] [] []).
  rewrite categorize_loop. reflexivity.
Qed.














Lemma rule_matches_intro (t kw before after : pystr) (rule : pystr * list pystr) :
  lower t = before ++ kw ++ after → kw ∈ snd rule → rule_matches t rule.
Proof.
  intros H Hin. unfold rule_matches. apply Exists_exists.
  exists kw. split; [done|]. by exists before, after.
Qed.

(** C10.  A keyword counts wherever it occurs in the lowercased title,
    whatever characters stand before and after it: a title whose lowercase
    form is [before ++ keyword ++ after] is assigned to the keyword's
    category (unless a category of higher priority matches), for every
    [before] and [after].  So "game" inside "Endgame" gives Sports and "city"
    inside "velocity" gives Local News, as the standalone words do. *)
Theorem keyword_match_is_substring (t kw before after : pystr) :
  lower t = before ++ kw ++ after →
  (kw ∈ local_keywords → category_of t = str "Local News") ∧
  (kw ∈ sports_keywords → ¬ rule_matches t local_rule → category_of t = str "Sports") ∧
  (kw ∈ business_keywords → ¬ rule_matches t local_rule → ¬ rule_matches t sports_rule →
     category_of t = str "Business") ∧
  category_of (str "Avengers Endgame review") = str "Sports" ∧
  category_of (str "Avengers game review") = str "Sports" ∧
  category_of (str "Wind velocity record") = str "Local News" ∧
  category_of (str "Wind in the city") = str "Local News".
Proof.
  intros H. destruct (category_of_cases t) as (HL & HS & HB & _).
  split; [|split; [|split]].
  - intros Hin. apply HL. by apply (rule_matches_intro t kw before after).
  - intros Hin Hno. apply HS. split; [done|].
    by apply (rule_matches_intro t kw before after).
  - intros Hin Hno1 Hno2. apply HB. split; [done|]. split; [done|].
    by apply (rule_matches_intro t kw before after).
  - repeat split; vm_compute; reflexivity.
Qed.

(** ** The renderer *)

(** C7.  On "**Hello** *world*\n\nSecond para" the bold pass wraps Hello in
    [<strong>], the italic pass that follows wraps world in [<em>], and the
    result has exactly two paragraphs, the first with the emphasis markup and
    the second with "Second para".  Bold runs before italic, and on this
    input the other order would give another text. *)
Theorem render_bold_italic_paragraphs :
  convert_bold (convert_headers two_paragraphs)
  = str "<strong>Hello</strong> *world*" ++ nl ++ nl ++ str "Second para" ∧
  convert_italic (convert_bold (convert_headers two_paragraphs))
  = str "<strong>Hello</strong> <em>world</em>" ++ nl ++ nl ++ str "Second para" ∧
  convert_markdown_to_html two_paragraphs
  = str "<p><strong>Hello</strong> <em>world</em></p><p>Second para</p>" ∧
  count_occ_str (str "<p>") (convert_markdown_to_html two_paragraphs) = 2%nat ∧
  (∀ text, convert_markdown_to_html text
           = convert_paragraphs (convert_italic (convert_bold (convert_headers text)))) ∧
  convert_bold (convert_italic (convert_headers two_paragraphs))
  ≠ convert_italic (convert_bold (convert_headers two_paragraphs)).
Proof.
  repeat split; try (vm_compute; reflexivity).
  vm_compute. discriminate.
Qed.

(** C8.  On four newlines the paragraph rules produce three paragraphs, all
    without content, and the clean-up drops them all: the result has no
    paragraph element. *)
Theorem render_blank_lines :
  mark_paragraphs (convert_italic (convert_bold (convert_headers four_newlines)))
  = str "<p></p><p></p><p></p>" ∧
  convert_markdown_to_html four_newlines = [] ∧
  count_occ_str (str "<p>") (convert_markdown_to_html four_newlines) = 0%nat.
Proof. repeat split; vm_compute; reflexivity. Qed.

(** ** Effects *)

Lemma value_bind {A B} (m : M A) (f : A → M B) : value (m ≫= f) = value (f (value m)).
Proof. destruct m as [a t1]. unfold value, mbind, M_bind. simpl. by destruct (f a). Qed.

Lemma trace_bind {A B} (m : M A) (f : A → M B) :
  trace (m ≫= f) = trace m ++ trace (f (value m)).
Proof. destruct m as [a t1]. unfold trace, value, mbind, M_bind. simpl. by destruct (f a). Qed.

Lemma value_mapM {A B} (f : A → M B) (l : list A) :
  value (mapM f l) = (λ x, value (f x)) <$> l.
Proof.
  induction l as [|x l IH]; [done|].
  cbn [mapM]. rewrite value_bind, value_bind, IH. done.
Qed.

Lemma trace_mapM {A B} (f : A → M B) (l : list A) :
  trace (mapM f l) = concat ((λ x, trace (f x)) <$> l).
Proof.
  induction l as [|x l IH]; [done|].
  cbn [mapM]. rewrite trace_bind, trace_bind, IH. simpl. by rewrite app_nil_r.
Qed.

(** ** Link extraction *)

(** What one turn of the loop does: nothing, or it appends the candidate of
    the anchor, whose URL is new and which fits under the cap. *)
Lemma scan_link_cases (max_articles : Z) (st : link_state) (link : node) :
  scan_link max_articles st link = st ∨
  ∃ t u, candidate_of link = Some (t, u) ∧
         (u ∉ processed_urls st) ∧
         (Z.of_nat (length (articles st)) < max_articles)%Z ∧
         (10 < length t)%nat ∧
         scan_link max_articles st link
         = {| articles := articles st ++ [{| title := t; url := u; content := [] |}];
              processed_urls := processed_urls st ∪ {[u]} |}.
Proof.
  unfold scan_link, candidate_of, resolve.
  destruct (node_attr (str "href") link) as [[|c href]|]; [by left| |by left].
  destruct (any_in href_keywords _); [|by left].
  set (full_url := if startswith (str "/") (c :: href) then _ else _).
  destruct (bool_decide (full_url ∉ processed_urls st)) eqn:Hnew; [|by left].
  destruct (Z.of_nat (length (articles st)) <? max_articles)%Z eqn:Hcap; [|by left].
  simpl. destruct (bool_decide (get_text_strip link ≠ [])); [|by left].
  simpl. destruct (10 <? length (get_text_strip link))%nat eqn:Hlen; [|by left].
  right. exists (get_text_strip link), full_url.
  apply bool_decide_eq_true in Hnew. apply Z.ltb_lt in Hcap. apply Nat.ltb_lt in Hlen.
  done.
Qed.

Lemma candidate_of_text (link : node) (t u : pystr) :
  candidate_of link = Some (t, u) → t = get_text_strip link.
Proof.
  unfold candidate_of. destruct (node_attr _ link); [|done].
  destruct (any_in _ _); [|done]. by intros [= <- _].
Qed.

Lemma scan_link_inv (max_articles : Z) (links : list node) (st : link_state) (link : node) :
  link_inv max_articles (omap candidate_of links) st →
  link_inv max_articles (omap candidate_of (links ++ [link]))
           (scan_link max_articles st link).
Proof.
  intros (Hnd & Hset & Hlen & Htitles & Hsub). rewrite omap_app.
  destruct (scan_link_cases max_articles st link)
    as [->|(t & u & Hc & Hnew & Hcap & Ht & ->)].
  - repeat split; try done; try (by apply Hset).
    by apply sublist_inserts_r.
  - unfold link_inv. simpl. rewrite Hc. simpl. rewrite !fmap_app. simpl.
    repeat split.
    + apply NoDup_app. split; [done|]. split; [|apply NoDup_singleton].
      intros x Hx Hx'. apply list_elem_of_singleton in Hx' as ->.
      apply Hnew. by apply Hset.
    + rewrite elem_of_union, elem_of_singleton, elem_of_app, list_elem_of_singleton.
      intros [?|?]; [left; by apply Hset|by right].
    + rewrite elem_of_union, elem_of_singleton, elem_of_app, list_elem_of_singleton.
      intros [?|?]; [left; by apply Hset|by right].
    + rewrite length_app. simpl. lia.
    + apply Forall_app. split; [done|]. apply Forall_singleton. simpl.
      split; [done|]. rewrite (candidate_of_text _ _ _ Hc). apply get_text_strip_trimmed.
    + by apply sublist_app.
Qed.

Lemma scan_links_snoc (max_articles : Z) (links : list node) (link : node) :
  scan_links max_articles (links ++ [link])
  = scan_link max_articles (scan_links max_articles links) link.
Proof. unfold scan_links. by rewrite foldl_app. Qed.

Lemma scan_links_inv (max_articles : Z) (links : list node) :
  link_inv max_articles (omap candidate_of links) (scan_links max_articles links).
Proof.
  induction links as [|link links IH] using rev_ind.
  - unfold link_inv, scan_links. simpl. repeat split; try done.
    + apply NoDup_nil_2.
    + by intros ?%elem_of_nil.
    + lia.
  - rewrite scan_links_snoc. by apply scan_link_inv.
Qed.

Lemma fill_content_value (w : world) (a : article) :
  value (fill_content w a)
  = {| title := title a; url := url a;
       content := value (get_article_content w (url a)) |}.
Proof. unfold fill_content. by rewrite !value_bind. Qed.

Lemma scrape_articles_value (w : world) (max_articles : Z) :
  value (scrape_articles w max_articles)
  = match http_get w base_url with
    | Page doc => (λ a, value (fill_content w a)) <$> extract_links max_articles doc
    | FetchError _ => []
    end.
Proof.
  unfold scrape_articles. rewrite !value_bind.
  destruct (http_get w base_url); [by rewrite !value_bind|apply value_mapM].
Qed.

Lemma fill_content_entries (w : world) (l : list article) :
  entry <$> ((λ a, value (fill_content w a)) <$> l) = entry <$> l.
Proof.
  rewrite <- list_fmap_compose. apply list_fmap_ext. intros i a _.
  simpl. by rewrite fill_content_value.
Qed.

(** C3.  Link extraction returns at most [max_articles] entries (none when
    [max_articles] is negative), no two with the same URL, each with a title
    of trimmed length above 10, in document order: the entries are a
    subsequence of the candidates of the page.  A turn of the loop changes
    nothing, or it appends the anchor's candidate, and then the URL was not
    among those accepted before and the cap was not reached.  The articles
    [scrape_articles] returns have these titles and URLs. *)
Theorem link_extraction_properties (w : world) (max_articles : Z) (doc : soup) :
  let found := extract_links max_articles doc in
  (Z.of_nat (length found) ≤ Z.max 0 max_articles)%Z ∧
  NoDup (url <$> found) ∧
  Forall (λ a, (10 < length (strip (title a)))%nat) found ∧
  sublist (entry <$> found) (candidates doc) ∧
  (∀ before link,
     let st := scan_links max_articles before in
     scan_link max_articles st link = st ∨
     ∃ t u, candidate_of link = Some (t, u) ∧
            (u ∉ url <$> articles st) ∧
            (Z.of_nat (length (articles st)) < max_articles)%Z ∧
            articles (scan_link max_articles st link)
            = articles st ++ [{| title := t; url := u; content := [] |}]) ∧
  match http_get w base_url with
  | Page page =>
      entry <$> value (scrape_articles w max_articles)
      = entry <$> extract_links max_articles page
  | FetchError _ => value (scrape_articles w max_articles) = []
  end.
Proof.
  intros found.
  destruct (scan_links_inv max_articles (find_all_with_attr (str "a") (str "href") doc))
    as (Hnd & _ & Hlen & Htitles & Hsub).
  repeat split; try done.
  - eapply Forall_impl; [exact Htitles|]. intros a [H1 H2]. simpl. by rewrite H2.
  - intros before link st.
    destruct (scan_links_inv max_articles before) as (_ & Hset & _).
    destruct (scan_link_cases max_articles st link)
      as [?|(t & u & Hc & Hnew & Hcap & _ & ->)]; [by left|right].
    exists t, u. repeat split; try done. intros Hin. apply Hnew. by apply Hset.
  - rewrite scrape_articles_value. destruct (http_get w base_url); [done|].
    apply fill_content_entries.
Qed.

(** The URL of a candidate is the href, with the base URL in front when
    the href starts with a slash; it is absolute exactly when the href starts
    with a slash or is absolute itself. *)
Lemma resolve_absolute (href : pystr) :
  is_absolute_url (resolve href) = startswith (str "/") href || is_absolute_url href.
Proof.
  unfold resolve. destruct (startswith (str "/") href) eqn:E; [reflexivity|done].
Qed.

(** Every returned URL is the resolved href of an anchor of the page. *)
Lemma extracted_url_resolved (max_articles : Z) (doc : soup) (a : article) :
  a ∈ extract_links max_articles doc →
  ∃ link href,
    link ∈ find_all_with_attr (str "a") (str "href") doc ∧
    node_attr (str "href") link = Some href ∧
    url a = resolve href.
Proof.
  intros Ha.
  destruct (scan_links_inv max_articles (find_all_with_attr (str "a") (str "href") doc))
    as (_ & _ & _ & _ & Hsub).
  assert (Hin : entry a ∈ candidates doc).
  { eapply elem_of_submseteq; [|by apply sublist_submseteq].
    by apply list_elem_of_fmap_2. }
  apply list_elem_of_omap in Hin as (link & Hlink & Hc).
  unfold candidate_of in Hc.
  destruct (node_attr (str "href") link) as [href|] eqn:E; [|done].
  destruct (any_in href_keywords (lower href)); [|done].
  injection Hc as _ Hu. exists link, href. done.
Qed.

(** C4 (the code departs from the specification).  An href with a leading slash is
    resolved by putting the base URL in front, which gives an absolute URL;
    an href that contains a path marker but starts neither with a slash nor
    with a scheme is returned as it stands, so the page with the single
    anchor [sports/story/2024/buckeyes.html] yields a URL that is not
    absolute, and [scrape_articles] returns it. *)
Theorem relative_href_kept_relative :
  entry <$> extract_links 10 rooted_link_page
  = [(str "Buckeyes win the title",
      str "https://www.dispatch.com/sports/story/2024/buckeyes.html")] ∧
  entry <$> extract_links 10 relative_link_page
  = [(str "Buckeyes win the title", str "sports/story/2024/buckeyes.html")] ∧
  Forall (λ a, is_absolute_url (url a) = true) (extract_links 10 rooted_link_page) ∧
  Forall (λ a, is_absolute_url (url a) = false) (extract_links 10 relative_link_page) ∧
  value (scrape_articles relative_link_world 10)
  = [{| title := str "Buckeyes win the title";
        url := str "sports/story/2024/buckeyes.html";
        content := [] |}].
Proof.
  assert (E1 : extract_links 10 rooted_link_page
    = [{| title := str "Buckeyes win the title";
          url := str "https://www.dispatch.com/sports/story/2024/buckeyes.html";
          content := [] |}]) by (vm_compute; reflexivity).
  assert (E2 : extract_links 10 relative_link_page
    = [{| title := str "Buckeyes win the title";
          url := str "sports/story/2024/buckeyes.html";
          content := [] |}]) by (vm_compute; reflexivity).
  rewrite E1, E2. split; [reflexivity|]. split; [reflexivity|].
  split; [|split]; try (apply Forall_singleton; vm_compute; reflexivity).
  vm_compute. reflexivity.
Qed.

(** ** Content extraction *)

Lemma select_content_spec (selectors : list selector) (doc : soup) :
  select_content selectors doc
  = match first_yielding selectors doc with
    | Some elements => joined_text elements
    | None => []
    end.
Proof.
  unfold first_yielding. induction selectors as [|sel selectors IH]; [done|].
  rewrite fmap_cons, filter_cons. cbn [select_content].
  destruct (select sel doc) as [|e elements] eqn:E.
  - rewrite decide_False by (intros H; by apply H). exact IH.
  - rewrite decide_True by done. reflexivity.
Qed.

(** C5, as the code has it.  The content is that of the first strategy
    yielding one or more elements, their trimmed texts joined by single
    spaces, when that text is not empty; when no strategy yields an element,
    or the text of the first yielding one is empty, it is the trimmed texts
    of the first 10 paragraph elements of the document joined by single
    spaces; in each case cut to 2000 characters. *)
Theorem page_content_spec (doc : soup) :
  page_content doc
  = take 2000
      match first_yielding content_selectors doc with
      | Some elements =>
          if decide (joined_text elements = []) then paragraph_scan doc
          else joined_text elements
      | None => paragraph_scan doc
      end ∧
  paragraph_scan doc
  = join (str " ") (get_text_strip <$> take 10 (find_all (str "p") doc)).
Proof.
  split; [|reflexivity].
  unfold page_content. rewrite select_content_spec.
  destruct (first_yielding content_selectors doc) as [elements|]; [|done].
  destruct (joined_text elements) eqn:E.
  - by rewrite decide_True.
  - by rewrite decide_False.
Qed.

(** C5, as the specification states it, fails on a page whose [div.article-body] is
    empty: that strategy is the first to yield an element, its joined text is
    empty, and the content is the paragraph text instead. *)
Lemma content_claim_fails_on_empty_body :
  first_yielding content_selectors empty_body_page = Some [empty_body] ∧
  joined_text [empty_body] = [] ∧
  page_content empty_body_page = str "Hello readers" ∧
  ¬ content_as_specified empty_body_page.
Proof.
  assert (E : first_yielding content_selectors empty_body_page = Some [empty_body])
    by (vm_compute; reflexivity).
  assert (P : page_content empty_body_page = str "Hello readers")
    by (vm_compute; reflexivity).
  split; [exact E|]. split; [reflexivity|]. split; [exact P|].
  unfold content_as_specified. rewrite E, P. vm_compute. discriminate.
Qed.

(** C6.  [get_article_content] returns at most 2000 characters: the empty
    string when the fetch or the parse raised, else the content of the page;
    so no article returned by [scrape_articles] has a longer content. *)
Theorem get_article_content_bounded (w : world) (u : pystr) (max_articles : Z) :
  (length (value (get_article_content w u)) ≤ 2000)%nat ∧
  match http_get w u with
  | FetchError _ => value (get_article_content w u) = []
  | Page doc => value (get_article_content w u) = page_content doc
  end ∧
  Forall (λ a, (length (content a) ≤ 2000)%nat) (value (scrape_articles w max_articles)).
Proof.
  assert (Hv : ∀ u', (length (value (get_article_content w u')) ≤ 2000)%nat).
  { intros u'. unfold get_article_content. rewrite !value_bind.
    destruct (http_get w u'); [rewrite !value_bind; simpl; lia|].
    apply length_take_le. }
  split; [apply Hv|]. split.
  - unfold get_article_content. rewrite !value_bind.
    destruct (http_get w u); [by rewrite !value_bind|done].
  - rewrite scrape_articles_value. destruct (http_get w base_url); [done|].
    apply Forall_fmap, Forall_forall. intros a _. simpl.
    rewrite fill_content_value. simpl. apply Hv.
Qed.

(** ** The summariser *)

Lemma io_events_app (t1 t2 : list event) :
  io_events (t1 ++ t2) = io_events t1 ++ io_events t2.
Proof. apply List.filter_app. Qed.

(** A failed attempt: the request is made with the attempt's timeout, a
    sleep of 5 seconds follows unless it was the third attempt, and the loop
    goes on. *)
Lemma attempt_loop_failure (w : world) (message : pystr) (attempt : nat) (rest : list nat) :
  is_failure (chat_completion w attempt) = true →
  value (attempt_loop w message (attempt :: rest)) = value (attempt_loop w message rest) ∧
  io_events (trace (attempt_loop w message (attempt :: rest)))
  = HttpPost api_url message (30 + Z.of_nat attempt * 15)
    :: (if (attempt <? 2)%nat then [Sleep 5] else [])
    ++ io_events (trace (attempt_loop w message rest)).
Proof.
  intros Hfail. cbn [attempt_loop]. unfold after_failure.
  destruct (chat_completion w attempt); try discriminate;
    destruct (attempt <? 2)%nat;
    rewrite !value_bind, !trace_bind, !io_events_app; split; reflexivity.
Qed.

(** A successful attempt ends the loop with the content of the answer. *)
Lemma attempt_loop_success (w : world) (message : pystr) (summary : py_value)
    (attempt : nat) (rest : list nat) :
  chat_completion w attempt = ApiOk summary →
  value (attempt_loop w message (attempt :: rest)) = Some summary.
Proof. intros H. cbn [attempt_loop]. rewrite H. by rewrite !value_bind. Qed.

(** Whatever the endpoint does, the summariser returns a string: the answer
    of the first successful attempt among the three, or the fallback. *)
Lemma summarize_never_fails (w : world) (articles : list article) :
  value (summarize_with_deepseek w articles)
  = match chat_completion w 0, chat_completion w 1, chat_completion w 2 with
    | ApiOk s, _, _ => s
    | _, ApiOk s, _ => s
    | _, _, ApiOk s => s
    | _, _, _ => PyStr (create_fallback_summary (now w fallback_date) articles)
    end.
Proof.
  unfold summarize_with_deepseek. rewrite !value_bind. simpl seq.
  set (msg := user_message articles).
  destruct (chat_completion w 0) eqn:E0;
    [destruct (attempt_loop_failure w msg 0 [1; 2]%nat) as [-> _]; [by rewrite E0|]..
    |by rewrite (attempt_loop_success w msg content0 0 _ E0)];
    (destruct (chat_completion w 1) eqn:E1;
     [destruct (attempt_loop_failure w msg 1 [2]%nat) as [-> _]; [by rewrite E1|]..
     |by rewrite (attempt_loop_success w msg content0 1 _ E1)]);
    (destruct (chat_completion w 2) eqn:E2;
     [destruct (attempt_loop_failure w msg 2 []) as [-> _]; [by rewrite E2|]..
     |by rewrite (attempt_loop_success w msg content0 2 _ E2)]);
    reflexivity.
Qed.

(** When every call of the endpoint raises (a timeout, a request error, or
    an exception on reading the answer), the summariser posts three times,
    with timeouts 30, 45 and 60, sleeps 5 seconds after the first and after
    the second failure and not after the third, and returns the fallback
    summary. *)
Lemma summarize_all_attempts_fail (w : world) (articles : list article) :
  (∀ n, is_failure (chat_completion w n) = true) →
  value (summarize_with_deepseek w articles)
  = PyStr (create_fallback_summary (now w fallback_date) articles) ∧
  io_events (trace (summarize_with_deepseek w articles))
  = [HttpPost api_url (user_message articles) 30; Sleep 5;
     HttpPost api_url (user_message articles) 45; Sleep 5;
     HttpPost api_url (user_message articles) 60].
Proof.
  intros Hfail. unfold summarize_with_deepseek.
  rewrite !value_bind, !trace_bind, !io_events_app. simpl seq.
  set (msg := user_message articles).
  destruct (attempt_loop_failure w msg 0 [1; 2]%nat (Hfail 0%nat)) as [V0 T0].
  destruct (attempt_loop_failure w msg 1 [2]%nat (Hfail 1%nat)) as [V1 T1].
  destruct (attempt_loop_failure w msg 2 [] (Hfail 2%nat)) as [V2 T2].
  rewrite V0, V1, V2, T0, T1, T2. split; reflexivity.
Qed.

(** C1 (the code departs from the specification).  An answer whose [content]
    field is not a string is returned as the summary without any check.
    With the endpoint answering [content: null] on every call, every
    response is malformed, yet the summariser posts once, with timeout 30,
    does not sleep, makes no second or third attempt, does not build the
    fallback summary and returns [None]; the run that called it then ends
    with the renderer's [TypeError] and sends nothing.  With the [content]
    field missing instead, the three attempts, the two sleeps and the
    fallback summary are all there. *)
Theorem null_content_not_retried :
  (∀ n, chat_completion null_content_world n = ApiOk PyNone) ∧
  value (summarize_with_deepseek null_content_world online_articles) = PyNone ∧
  io_events (trace (summarize_with_deepseek null_content_world online_articles))
  = [HttpPost api_url (user_message online_articles) 30] ∧
  Forall (λ e, e ≠ Call m_create_fallback_summary)
         (trace (summarize_with_deepseek null_content_world online_articles)) ∧
  value (summarize_with_deepseek null_content_world online_articles)
  ≠ PyStr (create_fallback_summary (now null_content_world fallback_date) online_articles) ∧
  value (scrape_articles null_content_world 10) = online_articles ∧
  value (run_daily_summary null_content_world) = Raised TypeError ∧
  List.filter is_send (trace (run_daily_summary null_content_world)) = [] ∧
  value (summarize_with_deepseek missing_content_world online_articles)
  = PyStr (create_fallback_summary (now missing_content_world fallback_date) online_articles) ∧
  io_events (trace (summarize_with_deepseek missing_content_world online_articles))
  = [HttpPost api_url (user_message online_articles) 30; Sleep 5;
     HttpPost api_url (user_message online_articles) 45; Sleep 5;
     HttpPost api_url (user_message online_articles) 60].
Proof.
  split; [done|].
  assert (V : value (summarize_with_deepseek null_content_world online_articles) = PyNone)
    by (vm_compute; reflexivity).
  split; [exact V|]. split; [vm_compute; reflexivity|].
  split; [vm_compute; repeat (apply Forall_cons; split; [discriminate|]); apply Forall_nil_2|].
  split; [rewrite V; discriminate|].
  split; [vm_compute; reflexivity|].
  split; [vm_compute; reflexivity|].
  split; [vm_compute; reflexivity|].
  apply summarize_all_attempts_fail. done.
Qed.

(** ** The pipeline *)

Lemma get_article_content_trace (w : world) (u : pystr) :
  Forall (λ e, downstream e = false) (trace (get_article_content w u)).
Proof.
  unfold get_article_content. rewrite !trace_bind.
  destruct (http_get w u); [rewrite trace_bind|]; repeat constructor.
Qed.

Lemma fill_content_trace (w : world) (a : article) :
  Forall (λ e, downstream e = false) (trace (fill_content w a)).
Proof.
  unfold fill_content. rewrite !trace_bind. apply Forall_app. split.
  - apply get_article_content_trace.
  - repeat constructor.
Qed.

(** Scraping performs no step of the summariser, the renderer or the
    sender. *)
Lemma scrape_articles_trace (w : world) (max_articles : Z) :
  Forall (λ e, downstream e = false) (trace (scrape_articles w max_articles)).
Proof.
  unfold scrape_articles. rewrite !trace_bind.
  apply Forall_app. split; [repeat constructor|].
  apply Forall_app. split; [repeat constructor|].
  destruct (http_get w base_url).
  - rewrite trace_bind. repeat constructor.
  - rewrite trace_mapM. apply Forall_concat, Forall_fmap, Forall_forall.
    intros a _. apply fill_content_trace.
Qed.

(** Finds an event in a trace built from binds, appends and [emit]. *)
Ltac find_event :=
  lazymatch goal with
  | |- _ ∈ trace (emit _) => apply list_elem_of_singleton; reflexivity
  | |- _ ∈ trace (_ ≫= _) => rewrite trace_bind; find_event
  | |- _ ∈ _ ++ _ => apply elem_of_app; ((left; find_event) || (right; find_event))
  end.

Lemma create_beautiful_email_value (w : world) (summary : py_value) (articles : list article) :
  value (create_beautiful_email w summary articles)
  = match summary with
    | PyStr text => Returned (email_page w text articles)
    | _ => Raised TypeError
    end.
Proof.
  unfold create_beautiful_email. rewrite !value_bind. by destruct summary.
Qed.

Lemma create_beautiful_email_trace (w : world) (summary : py_value) (articles : list article) :
  trace (create_beautiful_email w summary articles)
  = [Call m_create_beautiful_email; Call m_convert_markdown_to_html].
Proof.
  unfold create_beautiful_email. rewrite !trace_bind. by destruct summary.
Qed.

(** The steps of a run that found articles: after the summariser, the page
    is built; if the summary is a string the page is sent and the run logs
    its completion, otherwise the renderer has raised and the run ends
    there. *)
Lemma run_daily_summary_with_articles (w : world) :
  value (scrape_articles w 10) ≠ [] →
  let articles := value (scrape_articles w 10) in
  let summary := value (summarize_with_deepseek w articles) in
  trace (run_daily_summary w)
  = [Call m_run_daily_summary;
     Log INFO (str "Starting Columbus Dispatch morning summary...")]
    ++ trace (scrape_articles w 10)
    ++ [Log INFO (str "Found " ++ decimal (length articles) ++ str " articles")]
    ++ trace (summarize_with_deepseek w articles)
    ++ [Call m_create_beautiful_email; Call m_convert_markdown_to_html]
    ++ match summary with
       | PyStr text =>
           trace (send_email w (email_page w text articles))
           ++ [Log INFO (str "Daily summary completed!")]
       | _ => []
       end ∧
  value (run_daily_summary w)
  = match summary with
    | PyStr _ => Returned tt
    | _ => Raised TypeError
    end.
Proof.
  intros Hne. cbv zeta. unfold run_daily_summary.
  rewrite !trace_bind, !value_bind.
  destruct (value (scrape_articles w 10)) as [|a l]; [done|].
  rewrite !trace_bind, !value_bind.
  rewrite create_beautiful_email_value, create_beautiful_email_trace.
  destruct (value (summarize_with_deepseek w (a :: l)));
    rewrite ?trace_bind, ?value_bind; split; reflexivity.
Qed.

(** With articles, the run does reach the summariser and the renderer, and
    with a summary that is a string also the sender. *)
Lemma run_with_articles (w : world) :
  value (scrape_articles w 10) ≠ [] →
  Call m_summarize_with_deepseek ∈ trace (run_daily_summary w) ∧
  Call m_convert_markdown_to_html ∈ trace (run_daily_summary w) ∧
  (∀ text, value (summarize_with_deepseek w (value (scrape_articles w 10))) = PyStr text →
           Call m_send_email ∈ trace (run_daily_summary w)).
Proof.
  intros Hne. destruct (run_daily_summary_with_articles w Hne) as [Ht _].
  cbv zeta in Ht. rewrite Ht. clear Ht. repeat split.
  - do 3 (apply elem_of_app; right). apply elem_of_app. left.
    unfold summarize_with_deepseek. find_event.
  - do 4 (apply elem_of_app; right). apply elem_of_app. left.
    apply elem_of_cons. right. by apply list_elem_of_singleton.
  - intros text Hs. rewrite Hs.
    do 5 (apply elem_of_app; right). apply elem_of_app. left.
    unfold send_email. find_event.
Qed.

(** C9.  When scraping yields no article, the run logs its start, scrapes,
    logs the warning "No articles found" and ends: its trace has no step of
    the summariser, the renderer or the sender.  A failed fetch of the home
    page is such a case: [scrape_articles] logs the error and returns the
    empty list. *)
Theorem run_without_articles (w : world) :
  value (scrape_articles w 10) = [] →
  trace (run_daily_summary w)
  = [Call m_run_daily_summary;
     Log INFO (str "Starting Columbus Dispatch morning summary...")]
    ++ trace (scrape_articles w 10)
    ++ [Log WARNING (str "No articles found")] ∧
  Forall (λ e, downstream e = false) (trace (run_daily_summary w)) ∧
  match http_get w base_url with
  | FetchError e =>
      scrape_articles w 10
      = ([], [Call m_scrape_articles; HttpGet base_url 10;
              Log ERROR (str "Error scraping articles: " ++ e)])
  | Page _ => True
  end.
Proof.
  intros Hnone.
  assert (Ht : trace (run_daily_summary w)
    = [Call m_run_daily_summary;
       Log INFO (str "Starting Columbus Dispatch morning summary...")]
      ++ trace (scrape_articles w 10) ++ [Log WARNING (str "No articles found")]).
  { unfold run_daily_summary. rewrite !trace_bind, Hnone. reflexivity. }
  split; [exact Ht|]. split.
  - rewrite Ht. apply Forall_app. split; [repeat constructor|].
    apply Forall_app. split; [apply scrape_articles_trace|repeat constructor].
  - unfold scrape_articles. destruct (http_get w base_url); reflexivity || exact I.
Qed.

(** * Further properties *)

(** ** Link extraction and scraping *)

Lemma first_by_url_snoc (seen : list pystr) (l : list (pystr * pystr)) (c : pystr * pystr) :
  first_by_url seen (l ++ [c])
  = first_by_url seen l
    ++ (if decide (snd c ∈ seen ∨ snd c ∈ snd <$> first_by_url seen l) then [] else [c]).
Proof.
  revert seen. induction l as [|d l IH]; intros seen; simpl.
  - destruct (decide (snd c ∈ seen)) as [Hin|Hnin].
    + rewrite decide_True by (by left). done.
    + rewrite decide_False; [done|]. intros [?|H]; [done|]. by apply elem_of_nil in H.
  - destruct (decide (snd d ∈ seen)) as [Hd|Hd].
    + apply IH.
    + simpl. rewrite IH. f_equal. f_equal.
      destruct (decide (snd c ∈ snd d :: seen ∨ _)) as [H|H];
        destruct (decide (snd c ∈ seen ∨ _)) as [H'|H']; try done.
      * exfalso. apply H'. rewrite ?fmap_cons, ?elem_of_cons in *. tauto.
      * exfalso. apply H. rewrite ?fmap_cons, ?elem_of_cons in *. tauto.
Qed.

Lemma omap_one {A B} (f : A → option B) (x : A) :
  omap f [x] = match f x with Some y => [y] | None => [] end.
Proof. reflexivity. Qed.

(** One turn of the loop, in terms of the anchor's candidate. *)
Lemma scan_link_spec (max_articles : Z) (st : link_state) (link : node) :
  scan_link max_articles st link
  = match candidate_of link with
    | Some (t, u) =>
        if bool_decide (u ∉ processed_urls st)
           && (Z.of_nat (length (articles st)) <? max_articles)%Z
           && qualifies (t, u)
        then {| articles := articles st ++ [{| title := t; url := u; content := [] |}];
                processed_urls := processed_urls st ∪ {[u]} |}
        else st
    | None => st
    end.
Proof.
  unfold scan_link, candidate_of, resolve, qualifies.
  destruct (node_attr (str "href") link) as [[|c href]|]; [reflexivity| |reflexivity].
  destruct (any_in href_keywords _); [|reflexivity].
  destruct (bool_decide _); [|reflexivity].
  destruct (_ <? max_articles)%Z; reflexivity.
Qed.

Lemma scan_links_entries (max_articles : Z) (links : list node) :
  entry <$> articles (scan_links max_articles links)
  = take (Z.to_nat max_articles)
         (first_by_url [] (filter (λ c, qualifies c = true) (omap candidate_of links))).
Proof.
  induction links as [|link links IH] using rev_ind.
  { simpl. by destruct (Z.to_nat max_articles). }
  rewrite scan_links_snoc, omap_app, filter_app, omap_one, scan_link_spec.
  destruct (scan_links_inv max_articles links) as (_ & Hset & _).
  set (st := scan_links max_articles links) in *.
  set (kept := first_by_url [] (filter _ (omap candidate_of links))) in *.
  assert (Hurls : url <$> articles st = snd <$> take (Z.to_nat max_articles) kept).
  { rewrite <- IH, <- list_fmap_compose. done. }
  destruct (candidate_of link) as [[t u]|]; [|by rewrite filter_nil, app_nil_r].
  rewrite filter_cons, filter_nil.
  destruct (qualifies (t, u)) eqn:Hq.
  2:{ rewrite decide_False by done. by rewrite andb_false_r, app_nil_r. }
  rewrite decide_True by done. rewrite andb_true_r, first_by_url_snoc. fold kept. simpl snd.
  destruct (decide (length kept < Z.to_nat max_articles)%nat) as [Hlt|Hge].
  - rewrite take_ge in IH, Hurls by lia.
    assert (Hcap : (Z.of_nat (length (articles st)) <? max_articles)%Z = true).
    { apply Z.ltb_lt. rewrite <- (length_fmap entry), IH. lia. }
    rewrite Hcap, andb_true_r.
    destruct (decide (u ∈ [] ∨ u ∈ snd <$> kept)) as [Hin|Hnin].
    + rewrite bool_decide_eq_false_2; [by rewrite app_nil_r, take_ge by lia|].
      intros Hn. apply Hn. apply Hset. rewrite Hurls.
      destruct Hin as [Hin|Hin]; [by apply elem_of_nil in Hin|done].
    + rewrite bool_decide_eq_true_2.
      2:{ intros Hin. apply Hnin. right. rewrite <- Hurls. by apply Hset. }
      simpl. rewrite fmap_app, IH. simpl.
      rewrite take_ge; [done|]. rewrite length_app. simpl. lia.
  - rewrite take_app_le by lia.
    assert (Hcap : (Z.of_nat (length (articles st)) <? max_articles)%Z = false).
    { apply Z.ltb_ge. rewrite <- (length_fmap entry), IH, length_take. lia. }
    rewrite Hcap, andb_false_r. exact IH.
Qed.

(** X1.  Link extraction returns exactly the first [max_articles] of the
    page's candidates that have a text of more than 10 characters, one per
    URL (the first such one), in document order.  A candidate with a short
    text does not reserve its URL, and a non-positive bound gives nothing. *)
Theorem extract_links_first_qualifying (max_articles : Z) (doc : soup) :
  entry <$> extract_links max_articles doc
  = take (Z.to_nat max_articles)
         (first_by_url [] (filter (λ c, qualifies c = true) (candidates doc))) ∧
  Forall (λ a, content a = []) (extract_links max_articles doc).
Proof.
  split; [apply scan_links_entries|].
  unfold extract_links.
  induction (find_all_with_attr (str "a") (str "href") doc) as [|link links IH] using rev_ind.
  - constructor.
  - rewrite scan_links_snoc.
    destruct (scan_link_cases max_articles (scan_links max_articles links) link)
      as [->|(t & u & _ & _ & _ & _ & ->)]; [done|].
    simpl. apply Forall_app. split; [done|]. by apply Forall_singleton.
Qed.

Lemma get_article_content_value (w : world) (u : pystr) :
  value (get_article_content w u) = fetched_content w u.
Proof.
  unfold get_article_content, fetched_content. rewrite !value_bind.
  destruct (http_get w u); [by rewrite !value_bind|done].
Qed.

(** X2.  When the home page loads, [scrape_articles] returns the extracted
    links in order, none lost, each with the content of its own page, and
    with the empty content when that page could not be fetched: a failing
    article page affects no other article.  When the home page fails it
    returns the empty list. *)
Theorem scrape_articles_contents (w : world) (max_articles : Z) :
  value (scrape_articles w max_articles)
  = match http_get w base_url with
    | Page doc =>
        (λ a, {| title := title a; url := url a;
                 content := fetched_content w (url a) |})
          <$> extract_links max_articles doc
    | FetchError _ => []
    end.
Proof.
  rewrite scrape_articles_value. destruct (http_get w base_url); [done|].
  apply list_fmap_ext. intros i a _.
  by rewrite fill_content_value, get_article_content_value.
Qed.

Lemma io_events_concat (ts : list (list event)) :
  io_events (concat ts) = concat (io_events <$> ts).
Proof.
  induction ts as [|t ts IH]; [done|].
  simpl. by rewrite io_events_app, IH.
Qed.

Lemma fill_content_io (w : world) (a : article) :
  io_events (trace (fill_content w a)) = [HttpGet (url a) 10; Sleep 1].
Proof.
  unfold fill_content, get_article_content.
  rewrite !trace_bind, !io_events_app. rewrite !value_bind.
  destruct (http_get w (url a)); [rewrite !trace_bind|]; reflexivity.
Qed.

Lemma mapM_fill_content_io (w : world) (l : list article) :
  io_events (trace (mapM (fill_content w) l))
  = flat_map (λ a, [HttpGet (url a) 10; Sleep 1]) l.
Proof.
  rewrite trace_mapM, io_events_concat.
  induction l as [|a l IH]; [done|].
  rewrite !fmap_cons. cbn [concat flat_map]. by rewrite fill_content_io, IH.
Qed.

Lemma filled_requests (w : world) (l : list article) :
  flat_map (λ a, [HttpGet (url a) 10; Sleep 1]) ((λ a, value (fill_content w a)) <$> l)
  = flat_map (λ a, [HttpGet (url a) 10; Sleep 1]) l.
Proof.
  induction l as [|a l IH]; [done|].
  rewrite fmap_cons. cbn [flat_map]. by rewrite IH, fill_content_value.
Qed.

Lemma filled_urls (w : world) (l : list article) :
  url <$> ((λ a, value (fill_content w a)) <$> l) = url <$> l.
Proof.
  rewrite <- list_fmap_compose. apply list_fmap_ext. intros i a _.
  simpl. by rewrite fill_content_value.
Qed.

(** X3.  The requests of [scrape_articles]: one GET of the home page with a
    timeout of 10 seconds, then, for each returned article in order, one GET
    of its URL with a timeout of 10 seconds followed by a sleep of one
    second (also after the last article); nothing more when the home page
    fails.  No article page is requested twice. *)
Theorem scrape_articles_requests (w : world) (max_articles : Z) :
  io_events (trace (scrape_articles w max_articles))
  = HttpGet base_url 10
    :: flat_map (λ a, [HttpGet (url a) 10; Sleep 1]) (value (scrape_articles w max_articles)) ∧
  NoDup (url <$> value (scrape_articles w max_articles)).
Proof.
  rewrite scrape_articles_value. split.
  - unfold scrape_articles. rewrite !trace_bind, !io_events_app.
    destruct (http_get w base_url) as [e|doc].
    + rewrite !trace_bind. reflexivity.
    + rewrite mapM_fill_content_io, filled_requests. reflexivity.
  - destruct (http_get w base_url) as [e|doc]; [apply NoDup_nil_2|].
    rewrite filled_urls.
    by destruct (scan_links_inv max_articles (find_all_with_attr (str "a") (str "href") doc))
      as (Hnd & _).
Qed.

(** ** The summariser *)

Lemma attempt_loop_success_io (w : world) (message : pystr) (summary : py_value)
    (attempt : nat) (rest : list nat) :
  chat_completion w attempt = ApiOk summary →
  io_events (trace (attempt_loop w message (attempt :: rest)))
  = [HttpPost api_url message (30 + Z.of_nat attempt * 15)].
Proof. intros H. cbn [attempt_loop]. rewrite H. by rewrite !trace_bind. Qed.

Lemma summarize_io (w : world) (articles : list article) :
  io_events (trace (summarize_with_deepseek w articles))
  = io_events (trace (attempt_loop w (user_message articles) [0; 1; 2]%nat)).
Proof.
  unfold summarize_with_deepseek. rewrite !trace_bind, !io_events_app. simpl seq.
  destruct (value (attempt_loop w (user_message articles) [0; 1; 2]%nat));
    [|rewrite !trace_bind]; simpl; by rewrite app_nil_r.
Qed.

Lemma summarize_value (w : world) (articles : list article) :
  value (summarize_with_deepseek w articles)
  = default (PyStr (create_fallback_summary (now w fallback_date) articles))
            (value (attempt_loop w (user_message articles) [0; 1; 2]%nat)).
Proof.
  unfold summarize_with_deepseek. rewrite !value_bind. simpl seq.
  destruct (value (attempt_loop w (user_message articles) [0; 1; 2]%nat));
    [|rewrite !value_bind]; reflexivity.
Qed.

(** X4.  The first successful attempt ends the retry loop: when the attempts
    before attempt [k] (counted from 0, [k] below 3) fail and attempt [k]
    answers, the summariser returns the answer's content unchanged, having
    posted [k + 1] times with timeouts 30, 45, ... and slept 5 seconds after
    each failure; no request follows the successful one. *)
Theorem summarize_first_success (w : world) (articles : list article) (k : nat)
    (s : py_value) :
  (k < 3)%nat →
  (∀ i, (i < k)%nat → is_failure (chat_completion w i) = true) →
  chat_completion w k = ApiOk s →
  value (summarize_with_deepseek w articles) = s ∧
  io_events (trace (summarize_with_deepseek w articles))
  = flat_map (λ i, [HttpPost api_url (user_message articles) (30 + Z.of_nat i * 15); Sleep 5])
             (seq 0 k)
    ++ [HttpPost api_url (user_message articles) (30 + Z.of_nat k * 15)].
Proof.
  intros Hk Hfail Hok. rewrite summarize_io, summarize_value.
  set (msg := user_message articles).
  destruct k as [|[|[|k]]]; [| | |lia].
  - rewrite (attempt_loop_success w msg s 0 _ Hok), (attempt_loop_success_io w msg s 0 _ Hok).
    done.
  - assert (F0 := Hfail 0%nat ltac:(lia)).
    destruct (attempt_loop_failure w msg 0 [1; 2]%nat F0) as [V0 T0].
    rewrite V0, T0.
    rewrite (attempt_loop_success w msg s 1 _ Hok), (attempt_loop_success_io w msg s 1 _ Hok).
    done.
  - assert (F0 := Hfail 0%nat ltac:(lia)). assert (F1 := Hfail 1%nat ltac:(lia)).
    destruct (attempt_loop_failure w msg 0 [1; 2]%nat F0) as [V0 T0].
    destruct (attempt_loop_failure w msg 1 [2]%nat F1) as [V1 T1].
    rewrite V0, T0, V1, T1.
    rewrite (attempt_loop_success w msg s 2 _ Hok), (attempt_loop_success_io w msg s 2 _ Hok).
    done.
Qed.

Lemma is_failure_cases (r : api_result) :
  is_failure r = true ∨ ∃ s, r = ApiOk s.
Proof. destruct r; eauto. Qed.

(** The three shapes of the summariser's requests. *)
Lemma summarize_io_cases (w : world) (articles : list article) :
  let post t := HttpPost api_url (user_message articles) t in
  let io := io_events (trace (summarize_with_deepseek w articles)) in
  io = [post 30%Z] ∨
  io = [post 30%Z; Sleep 5; post 45%Z] ∨
  io = [post 30%Z; Sleep 5; post 45%Z; Sleep 5; post 60%Z].
Proof.
  intros post io. unfold io. rewrite summarize_io.
  set (msg := user_message articles).
  destruct (is_failure_cases (chat_completion w 0)) as [F0|[s0 S0]].
  2:{ left. by rewrite (attempt_loop_success_io w msg s0 0 _ S0). }
  destruct (attempt_loop_failure w msg 0 [1; 2]%nat F0) as [_ T0]. rewrite T0.
  destruct (is_failure_cases (chat_completion w 1)) as [F1|[s1 S1]].
  2:{ right. left. by rewrite (attempt_loop_success_io w msg s1 1 _ S1). }
  destruct (attempt_loop_failure w msg 1 [2]%nat F1) as [_ T1]. rewrite T1.
  right. right.
  destruct (is_failure_cases (chat_completion w 2)) as [F2|[s2 S2]].
  2:{ by rewrite (attempt_loop_success_io w msg s2 2 _ S2). }
  destruct (attempt_loop_failure w msg 2 [] F2) as [_ T2]. rewrite T2. reflexivity.
Qed.

(** X5.  Whatever the endpoint does, the summariser posts at least once and
    at most three times, always the same message to the same URL, sleeps at
    most twice, once between two consecutive posts and nowhere else (so one
    time fewer than it posts, and neither first nor last), and the timeouts
    and sleeps add up to at least 30 and at most 145 seconds. *)
Theorem summarize_bounded (w : world) (articles : list article) :
  let io := io_events (trace (summarize_with_deepseek w articles)) in
  (1 ≤ length (List.filter is_post io) ≤ 3)%nat ∧
  (30 ≤ total_seconds io ≤ 145)%Z ∧
  Forall (λ e, e = Sleep 5 ∨
               ∃ t, e = HttpPost api_url (user_message articles) t ∧ (30 ≤ t ≤ 60)%Z) io ∧
  (length (List.filter is_sleep io) ≤ 2)%nat ∧
  (length (List.filter is_sleep io) + 1 = length (List.filter is_post io))%nat ∧
  (length io = 2 * length (List.filter is_post io) - 1)%nat ∧
  (∀ i e, io !! i = Some e → is_sleep e = Nat.odd i) ∧
  (∀ i e, io !! i = Some e → is_post e = Nat.even i) ∧
  (∀ k e, io !! (2 * k)%nat = Some e →
          e = HttpPost api_url (user_message articles) (30 + 15 * Z.of_nat k)).
Proof.
  intros io. unfold io.
  destruct (summarize_io_cases w articles) as [-> | [-> | ->]]; simpl;
    (split; [lia|split; [lia|split; [|split; [lia|split; [lia|split; [lia|]]]]]]).
  all: try (repeat (apply Forall_cons; split;
              [first [by left | right; eexists; split; [reflexivity|lia]]|]);
            apply Forall_nil_2).
  all: split; [|split]; intros i e Hi.
  all: try (repeat (destruct i as [|i]; [injection Hi as <-; reflexivity|]); discriminate Hi).
  all: pose proof (lookup_lt_Some _ _ _ Hi) as Hlt; cbn [length] in Hlt;
    destruct i as [|[|[|i]]]; [..|lia];
    first [injection Hi as <-; reflexivity | discriminate Hi | lia].
Qed.

(** X6.  The prompt shows of each article its title and the first 500
    characters of its content, nothing of its URL and nothing beyond the
    500th character. *)
Theorem prompt_shows_title_and_500 (articles : list article) :
  user_message articles = user_message (prompt_view <$> articles).
Proof.
  unfold user_message, content_for_summary. do 3 f_equal.
  rewrite imap_fmap. apply imap_ext. intros i a _. simpl.
  by rewrite take_take.
Qed.

(** ** The fallback summary *)

Lemma in_category_partition (titles : list pystr) :
  in_category (str "Local News") titles ++ in_category (str "Sports") titles
    ++ in_category (str "Business") titles ++ in_category (str "Other") titles
  ≡ₚ titles.
Proof.
  induction titles as [|t titles IH]; [done|].
  rewrite !in_category_cons.
  pose proof (category_of_range t) as Hr. unfold category_order in Hr.
  rewrite !elem_of_cons, elem_of_nil in Hr.
  destruct Hr as [Hc|[Hc|[Hc|[Hc|[]]]]]; rewrite !Hc;
    repeat (case_decide; [|try done]); try discriminate; simpl.
  - by rewrite IH.
  - rewrite <- Permutation_middle. by rewrite IH.
  - rewrite app_assoc, <- Permutation_middle, <- app_assoc. by rewrite IH.
  - rewrite !app_assoc, <- Permutation_middle, <- !app_assoc. by rewrite IH.
Qed.

Lemma in_category_all (c : pystr) (titles : list pystr) :
  Forall (λ t, category_of t = c) (in_category c titles).
Proof.
  apply Forall_forall. intros t Ht. unfold in_category in Ht.
  by apply list_elem_of_filter in Ht as [? _].
Qed.

(** X7.  The categories partition the titles of the first 8 articles: the
    dict always has the four keys in their fixed order, every list holds only
    titles of its own category, and the four lists together are a
    rearrangement of those titles, none lost and none listed twice. *)
Theorem categories_partition (articles : list article) :
  fst <$> categorize articles = category_order ∧
  Forall (λ item, Forall (λ t, category_of t = fst item) (snd item)) (categorize articles) ∧
  concat (snd <$> categorize articles) ≡ₚ title <$> take 8 articles.
Proof.
  rewrite categorize_spec. split; [reflexivity|]. split.
  - unfold category_order. repeat (apply Forall_cons; split; [apply in_category_all|]).
    apply Forall_nil_2.
  - unfold category_order, titles_in. simpl. rewrite app_nil_r.
    apply in_category_partition.
Qed.

Lemma lower_from_ascii (before t : pystr) :
  Forall (λ c, c < 128) t → lower_from unicode_lower before t = ascii_lower <$> t.
Proof.
  intros H. revert before. induction H as [|c t Hc _ IH]; intros before; [done|].
  cbn [lower_from]. unfold lower_at.
  apply N.ltb_lt in Hc. rewrite Hc. simpl. by rewrite IH.
Qed.

(** X8.  On ASCII titles the categorisation ignores letter case: two titles
    that differ only in the case of their letters get the same category,
    for every Unicode table. *)
Theorem category_ignores_ascii_case (t1 t2 : pystr) :
  Forall (λ c, c < 128) t1 →
  Forall (λ c, c < 128) t2 →
  ascii_lower <$> t1 = ascii_lower <$> t2 →
  category_of t1 = category_of t2.
Proof.
  intros H1 H2 Heq. unfold category_of, PyStr.lower.
  by rewrite (lower_from_ascii [] t1 H1), (lower_from_ascii [] t2 H2), Heq.
Qed.

(** ** The pipeline *)



(** ** The renderer, in general *)

Lemma re_sub_go_skip (m : matcher) (bol : bool) (l rest : pystr) :
  re_sub_go m (length l) bol (l ++ rest) = re_sub_go m 0 (bol_after bol l) rest.
Proof.
  revert bol. induction l as [|c l IH]; intros bol; [done|].
  simpl. apply IH.
Qed.

(** Text in which the pattern's first character does not occur is copied. *)
Lemma re_sub_go_copy (m : matcher) (h : N) (bol : bool) (l rest : pystr) :
  needs_head m h → Forall (λ c, c ≠ h) l →
  re_sub_go m 0 bol (l ++ rest) = l ++ re_sub_go m 0 (bol_after bol l) rest.
Proof.
  intros Hm Hl. revert bol. induction Hl as [|c l Hc _ IH]; intros bol; [done|].
  simpl. rewrite (Hm bol c _ Hc). f_equal. apply IH.
Qed.

(** At a match the replacement is written and scanning resumes behind it. *)
Lemma re_sub_go_match (m : matcher) (bol : bool) (matched rest repl : pystr) :
  matched ≠ [] →
  m bol (matched ++ rest) = Some (repl, length matched) →
  re_sub_go m 0 bol (matched ++ rest)
  = repl ++ re_sub_go m 0 (bol_after bol matched) rest.
Proof.
  intros Hne Hm. destruct matched as [|c l]; [done|].
  simpl in *. rewrite Hm. simpl. f_equal. apply re_sub_go_skip.
Qed.

Lemma re_sub_go_ignores_bol (m : matcher) (k : nat) (b1 b2 : bool) (s : pystr) :
  ignores_bol m → re_sub_go m k b1 s = re_sub_go m k b2 s.
Proof.
  intros Hm. revert k b1 b2. induction s as [|c s IH]; intros k b1 b2; [done|].
  simpl. destruct k; [|done]. by rewrite (Hm b1 b2).
Qed.

Lemma re_sub_identity (m : matcher) (h : N) (s : pystr) :
  needs_head m h → Forall (λ c, c ≠ h) s → re_sub m s = s.
Proof.
  intros Hm Hs. unfold re_sub.
  rewrite <- (app_nil_r s) at 1. rewrite (re_sub_go_copy m h _ s [] Hm Hs).
  simpl. apply app_nil_r.
Qed.

Lemma startswith_cons (a b : N) (p s : pystr) :
  startswith (a :: p) (b :: s) = (a =? b) && startswith p s.
Proof. reflexivity. Qed.

Lemma startswith_app (p s : pystr) : startswith p (p ++ s) = true.
Proof. apply startswith_spec. by exists s. Qed.

Lemma startswith_head_ne (h c : N) (p s : pystr) :
  c ≠ h → startswith (h :: p) (c :: s) = false.
Proof.
  intros Hc. rewrite startswith_cons.
  destruct (N.eqb_spec h c) as [->|_]; done.
Qed.

Lemma literal_needs_head (h : N) (old new : pystr) :
  needs_head (literal_re (h :: old) new) h.
Proof. intros bol c s Hc. unfold literal_re. by rewrite startswith_head_ne. Qed.

Lemma emphasis_needs_head (h : N) (delim tag : pystr) :
  needs_head (emphasis_re (h :: delim) tag) h.
Proof. intros bol c s Hc. unfold emphasis_re. by rewrite startswith_head_ne. Qed.

Lemma header_needs_head (h : N) (hashes tag : pystr) :
  needs_head (header_re (h :: hashes) tag) h.
Proof.
  intros bol c s Hc. unfold header_re. simpl app.
  by rewrite startswith_head_ne, andb_false_r.
Qed.

Lemma literal_ignores_bol (old new : pystr) : ignores_bol (literal_re old new).
Proof. done. Qed.

Lemma emphasis_ignores_bol (delim tag : pystr) : ignores_bol (emphasis_re delim tag).
Proof. done. Qed.

(** Replacing a single character is a character-wise substitution. *)
Lemma replace_char (c : N) (new s : pystr) :
  replace [c] new s = flat_map (λ x, if x =? c then new else [x]) s.
Proof.
  unfold replace, re_sub. generalize true.
  induction s as [|x s IH]; intros bol; [done|].
  cbn [re_sub_go flat_map]. unfold literal_re at 1.
  rewrite startswith_cons. cbn [startswith]. rewrite andb_true_r, N.eqb_sym.
  destruct (x =? c); cbn [pred length]; by rewrite IH.
Qed.

(** What a substitution writes comes from the text or from a replacement. *)
Lemma re_sub_go_chars (P : N → Prop) (m : matcher) (k : nat) (bol : bool) (s : pystr) :
  (∀ b t r n, m b t = Some (r, n) → Forall P r) →
  Forall P s → Forall P (re_sub_go m k bol s).
Proof.
  intros Hm Hs. revert k bol. induction Hs as [|c s Hc _ IH]; intros k bol; [done|].
  simpl. destruct k; [|apply IH].
  destruct (m bol (c :: s)) as [[r n]|] eqn:E.
  - apply Forall_app. split; [by eapply Hm|apply IH].
  - constructor; [done|apply IH].
Qed.

Lemma replace_chars (P : N → Prop) (old new s : pystr) :
  Forall P new → Forall P s → Forall P (replace old new s).
Proof.
  intros Hnew Hs. apply re_sub_go_chars; [|done].
  intros b t r n. unfold literal_re. case_match; [|done]. by intros [= <- _].
Qed.

(** X10.  The rendered fragment never contains a newline character,
    whatever the input: every newline has become a line-break marker or a
    paragraph boundary, or was dropped with an empty paragraph. *)
Theorem render_has_no_newline (text : pystr) :
  Forall (λ c, c ≠ newline) (convert_markdown_to_html text).
Proof.
  unfold convert_markdown_to_html, convert_paragraphs, drop_empty_paragraphs, mark_paragraphs.
  set (t := convert_italic _).
  apply replace_chars; [done|]. apply replace_chars; [done|].
  apply Forall_app. split; [by vm_compute; repeat constructor|].
  apply Forall_app. split; [|by vm_compute; repeat constructor].
  apply replace_chars; [by vm_compute; repeat constructor|].
  unfold nl. rewrite replace_char. apply Forall_flat_map, Forall_forall. intros x _.
  destruct (N.eqb_spec x 10) as [->|Hx]; [by vm_compute; repeat constructor|].
  by apply Forall_singleton.
Qed.

Lemma replace_identity (h : N) (old new s : pystr) :
  Forall (λ c, c ≠ h) s → replace (h :: old) new s = s.
Proof.
  intros Hs. unfold replace.
  apply (re_sub_identity _ h); [apply literal_needs_head|done].
Qed.

(** The first occurrence of the pattern, behind text free of its first
    character, is replaced, and the rest is treated in the same way. *)
Lemma replace_first (h : N) (old new pre post : pystr) :
  Forall (λ c, c ≠ h) pre →
  replace (h :: old) new (pre ++ (h :: old) ++ post)
  = pre ++ new ++ replace (h :: old) new post.
Proof.
  intros Hpre. unfold replace, re_sub.
  rewrite (re_sub_go_copy _ h _ pre _ (literal_needs_head h old new) Hpre).
  rewrite (re_sub_go_match _ _ (h :: old) post new); [|done|].
  - do 2 f_equal. apply re_sub_go_ignores_bol, literal_ignores_bol.
  - unfold literal_re. by rewrite startswith_app.
Qed.

Lemma replace_absent (old new s : pystr) :
  contains old s = false → replace old new s = s.
Proof.
  unfold replace, re_sub. generalize true.
  induction s as [|c s IH]; intros bol Hc; [done|].
  cbn [contains] in Hc. apply orb_false_iff in Hc as [H1 H2].
  cbn [re_sub_go]. unfold literal_re at 1. rewrite H1. f_equal. by apply IH.
Qed.

Lemma contains_cons_ne (h c : N) (n s : pystr) :
  c ≠ h → contains (h :: n) (c :: s) = contains (h :: n) s.
Proof. intros Hc. cbn [contains]. by rewrite startswith_head_ne. Qed.

Lemma contains_app_ne (h : N) (n l r : pystr) :
  Forall (λ c, c ≠ h) l → contains (h :: n) (l ++ r) = contains (h :: n) r.
Proof.
  induction 1 as [|c l Hc _ IH]; [done|].
  simpl app. by rewrite contains_cons_ne.
Qed.

Lemma contains_all_ne (h : N) (n l : pystr) :
  Forall (λ c, c ≠ h) l → contains (h :: n) l = false.
Proof.
  intros H. rewrite <- (app_nil_r l). by rewrite contains_app_ne.
Qed.

Lemma contains_cons_miss (needle : pystr) (c : N) (s : pystr) :
  startswith needle (c :: s) = false → contains needle (c :: s) = contains needle s.
Proof. intros H. cbn [contains]. by rewrite H. Qed.

Lemma subst_identity (c : N) (new s : pystr) :
  Forall (λ x, x ≠ c) s → flat_map (λ x, if x =? c then new else [x]) s = s.
Proof.
  induction 1 as [|x s Hx _ IH]; [done|].
  cbn [flat_map]. rewrite IH. by destruct (N.eqb_spec x c).
Qed.

Lemma unmarked_parts (s : pystr) :
  unmarked s →
  Forall (λ c, c ≠ 42) s ∧ Forall (λ c, c ≠ 35) s ∧ Forall (λ c, c ≠ 60) s.
Proof.
  intros H. repeat split; eapply Forall_impl; try exact H; simpl; intros c (? & ? & ?); done.
Qed.

(** The three markup passes leave text without asterisk and hash sign as
    it is. *)
Lemma markup_passes_identity (s : pystr) :
  Forall (λ c, c ≠ 42) s → Forall (λ c, c ≠ 35) s →
  convert_italic (convert_bold (convert_headers s)) = s.
Proof.
  intros Hstar Hhash. unfold convert_headers, convert_bold, convert_italic.
  rewrite (re_sub_identity (header_re (str "###") _) 35 s (header_needs_head 35 _ _) Hhash).
  rewrite (re_sub_identity (header_re (str "##") _) 35 s (header_needs_head 35 _ _) Hhash).
  rewrite (re_sub_identity (header_re (str "#") _) 35 s (header_needs_head 35 _ _) Hhash).
  rewrite (re_sub_identity (emphasis_re (str "**") _) 42 s (emphasis_needs_head 42 _ _) Hstar).
  apply (re_sub_identity (emphasis_re (str "*") _) 42 s (emphasis_needs_head 42 _ _) Hstar).
Qed.

(** Writes the string literals of the goal as lists of code points. *)
Ltac norm_str :=
  repeat match goal with
         | |- context [str ?s] =>
             let v := eval vm_compute in (str s) in change (str s) with v
         end;
  unfold nl; repeat rewrite <- app_assoc; cbn [app].

(** Shows that a pattern starting with [<] does not occur in a text made of
    literal pieces and of pieces free of [<]. *)
Ltac eval_startswith :=
  repeat rewrite startswith_cons;
  repeat match goal with H : (_ =? _) = false |- _ => rewrite H end;
  reflexivity.

Ltac solve_absent :=
  norm_str;
  repeat first
    [ rewrite contains_app_ne by assumption
    | rewrite contains_all_ne by assumption
    | rewrite contains_cons_ne by first [assumption | done]
    | rewrite contains_cons_miss by eval_startswith ];
  reflexivity.

Lemma plain_cons (c : N) (t : pystr) :
  plain (c :: t) →
  c ≠ 60 ∧ (60 =? c) = false ∧ Forall (λ c, c ≠ 60) t.
Proof.
  intros [Hu _]. apply unmarked_parts in Hu as (_ & _ & H).
  apply Forall_cons in H as [Hc Ht]. repeat split; try done.
  by apply N.eqb_neq.
Qed.

(** X11.  Text without markup is only wrapped: a non-empty line becomes one
    paragraph; a single newline between two lines becomes a line-break marker
    inside the paragraph; a blank line between them separates two
    paragraphs; a newline at the end leaves a line-break marker before the
    end of the paragraph.  The empty text gives the empty fragment. *)
Theorem render_plain_text (a b : pystr) :
  plain a → plain b → a ≠ [] → b ≠ [] →
  convert_markdown_to_html a = str "<p>" ++ a ++ str "</p>" ∧
  convert_markdown_to_html (a ++ nl ++ b)
  = str "<p>" ++ a ++ str "<br>" ++ b ++ str "</p>" ∧
  convert_markdown_to_html (a ++ nl ++ nl ++ b)
  = str "<p>" ++ a ++ str "</p><p>" ++ b ++ str "</p>" ∧
  convert_markdown_to_html (a ++ nl) = str "<p>" ++ a ++ str "<br></p>" ∧
  convert_markdown_to_html [] = [].
Proof.
  intros Ha Hb Hane Hbne.
  destruct a as [|ca ta]; [done|]. destruct b as [|cb tb]; [done|].
  destruct (plain_cons _ _ Ha) as (Hca & Hca' & Hta).
  destruct (plain_cons _ _ Hb) as (Hcb & Hcb' & Htb).
  destruct Ha as [Hua Hnla], Hb as [Hub Hnlb].
  destruct (unmarked_parts _ Hua) as (Ha1 & Ha2 & Ha3).
  destruct (unmarked_parts _ Hub) as (Hb1 & Hb2 & Hb3).
  set (a := ca :: ta) in *. set (b := cb :: tb) in *.
  assert (Hnl1 : Forall (λ c : N, c ≠ 42) nl) by (by repeat constructor).
  assert (Hnl2 : Forall (λ c : N, c ≠ 35) nl) by (by repeat constructor).
  unfold convert_markdown_to_html, convert_paragraphs, drop_empty_paragraphs, mark_paragraphs.
  repeat split.
  - rewrite markup_passes_identity by done.
    rewrite (replace_identity 10 [] _ a Hnla).
    change (str "<br><br>") with (60 :: str "br><br>").
    rewrite (replace_identity 60 _ _ a Ha3).
    rewrite (replace_absent (str "<p></p>")) by (subst a; solve_absent).
    rewrite (replace_absent (str "<p><br></p>")) by (subst a; solve_absent).
    reflexivity.
  - rewrite markup_passes_identity by (repeat (apply Forall_app; split); done).
    unfold nl at 1. rewrite replace_char, !flat_map_app.
    rewrite (subst_identity 10 _ a Hnla), (subst_identity 10 _ b Hnlb).
    change (flat_map _ nl) with (str "<br>").
    rewrite (replace_absent (str "<br><br>")) by (subst a b; solve_absent).
    rewrite (replace_absent (str "<p></p>")) by (subst a b; solve_absent).
    rewrite (replace_absent (str "<p><br></p>")) by (subst a b; solve_absent).
    by rewrite <- !app_assoc.
  - rewrite markup_passes_identity by (repeat (apply Forall_app; split); done).
    unfold nl at 1. rewrite replace_char, !flat_map_app.
    rewrite (subst_identity 10 _ a Hnla), (subst_identity 10 _ b Hnlb).
    change (flat_map _ nl) with (str "<br>").
    change (a ++ str "<br>" ++ str "<br>" ++ b) with (a ++ (60 :: str "br><br>") ++ b).
    change (str "<br><br>") with (60 :: str "br><br>").
    rewrite (replace_first 60 _ _ a b Ha3), (replace_identity 60 _ _ b Hb3).
    rewrite (replace_absent (str "<p></p>")) by (subst a b; solve_absent).
    rewrite (replace_absent (str "<p><br></p>")) by (subst a b; solve_absent).
    by rewrite <- !app_assoc.
  - rewrite markup_passes_identity by (repeat (apply Forall_app; split); done).
    unfold nl at 1. rewrite replace_char, !flat_map_app.
    rewrite (subst_identity 10 _ a Hnla).
    change (flat_map _ nl) with (str "<br>").
    rewrite (replace_absent (str "<br><br>")) by (subst a; solve_absent).
    rewrite (replace_absent (str "<p></p>")) by (subst a; solve_absent).
    rewrite (replace_absent (str "<p><br></p>")) by (subst a; solve_absent).
    by rewrite <- !app_assoc.
Qed.

Lemma dot_plus_lazy_body (h : N) (d body post : pystr) :
  body ≠ [] →
  Forall (λ c, c ≠ 10 ∧ c ≠ h) body →
  dot_plus_lazy (h :: d) (body ++ (h :: d) ++ post) = Some (length body).
Proof.
  intros Hne Hb. induction Hb as [|c body [Hc1 Hc2] Hb IH]; [done|].
  change ((c :: body) ++ (h :: d) ++ post) with (c :: (body ++ (h :: d) ++ post)).
  cbn [dot_plus_lazy length].
  destruct (N.eqb_spec c 10) as [->|_]; [done|].
  destruct body as [|c2 body].
  - change ([] ++ (h :: d) ++ post) with ((h :: d) ++ post). by rewrite startswith_app.
  - apply Forall_cons in Hb as [[_ Hc2'] _].
    change ((c2 :: body) ++ (h :: d) ++ post) with (c2 :: (body ++ (h :: d) ++ post)) in *.
    rewrite startswith_head_ne by done. by rewrite IH.
Qed.

(** The first emphasised span behind text free of asterisks is wrapped in
    the tag, and the rest is treated in the same way. *)
Lemma emphasis_first (h : N) (d tag pre body post : pystr) :
  Forall (λ c, c ≠ h) pre →
  body ≠ [] →
  Forall (λ c, c ≠ 10 ∧ c ≠ h) body →
  re_sub (emphasis_re (h :: d) tag) (pre ++ (h :: d) ++ body ++ (h :: d) ++ post)
  = pre ++ (str "<" ++ tag ++ str ">" ++ body ++ str "</" ++ tag ++ str ">")
        ++ re_sub (emphasis_re (h :: d) tag) post.
Proof.
  intros Hpre Hne Hbody. unfold re_sub.
  rewrite (re_sub_go_copy _ h _ pre _ (emphasis_needs_head h d tag) Hpre).
  replace ((h :: d) ++ body ++ (h :: d) ++ post)
    with (((h :: d) ++ body ++ (h :: d)) ++ post) by (by rewrite <- !app_assoc).
  rewrite (re_sub_go_match _ _ ((h :: d) ++ body ++ (h :: d)) post
             (str "<" ++ tag ++ str ">" ++ body ++ str "</" ++ tag ++ str ">")); [|done|].
  - do 2 f_equal. apply re_sub_go_ignores_bol, emphasis_ignores_bol.
  - unfold emphasis_re. rewrite <- !app_assoc, startswith_app, drop_app_length.
    rewrite (dot_plus_lazy_body h d body post Hne Hbody), take_app_length.
    do 2 f_equal. rewrite !length_app. simpl. lia.
Qed.

Lemma emphasis_absent (delim tag s : pystr) :
  contains delim s = false → re_sub (emphasis_re delim tag) s = s.
Proof.
  unfold re_sub. generalize true.
  induction s as [|c s IH]; intros bol Hc; [done|].
  cbn [contains] in Hc. apply orb_false_iff in Hc as [H1 H2].
  cbn [re_sub_go]. unfold emphasis_re at 1. rewrite H1. f_equal. by apply IH.
Qed.

(** X12.  Emphasis is resolved from left to right: behind text without
    asterisk, a span between double asterisks becomes a bold element and a
    span between single asterisks an italic element, provided the span is not
    empty and holds neither an asterisk nor a newline; the text after the
    closing mark is then converted on its own. *)
Theorem emphasis_left_to_right (pre body post : pystr) :
  Forall (λ c, c ≠ star) pre →
  body ≠ [] →
  Forall (λ c, c ≠ newline ∧ c ≠ star) body →
  convert_bold (pre ++ str "**" ++ body ++ str "**" ++ post)
  = pre ++ str "<strong>" ++ body ++ str "</strong>" ++ convert_bold post ∧
  convert_italic (pre ++ str "*" ++ body ++ str "*" ++ post)
  = pre ++ str "<em>" ++ body ++ str "</em>" ++ convert_italic post.
Proof.
  intros Hpre Hne Hbody. unfold convert_bold, convert_italic. split.
  - change (str "**") with (42 :: [42]).
    rewrite (emphasis_first 42 [42] (str "strong") pre body post Hpre Hne Hbody).
    by rewrite <- !app_assoc.
  - change (str "*") with (42 :: []).
    rewrite (emphasis_first 42 [] (str "em") pre body post Hpre Hne Hbody).
    by rewrite <- !app_assoc.
Qed.

Lemma plain_facts (s : pystr) :
  plain s →
  Forall (λ c, c ≠ 42) s ∧ Forall (λ c, c ≠ 35) s ∧
  Forall (λ c, c ≠ 60) s ∧ Forall (λ c, c ≠ 10) s.
Proof.
  intros [Hu Hn]. destruct (unmarked_parts s Hu) as (? & ? & ?). done.
Qed.

(** Splits the facts on a text with a known first character into facts on
    that character and on the rest. *)
Ltac heads :=
  repeat match goal with
         | H : Forall _ (_ :: _) |- _ => apply Forall_cons in H as [? H]
         end;
  repeat match goal with
         | H : ?c ≠ ?k |- _ =>
             lazymatch goal with
             | _ : (k =? c) = false |- _ => fail
             | _ => pose proof (proj2 (N.eqb_neq k c) (λ E, H (eq_sym E)))
             end
         end.

(** Shows that a character does not occur in a text made of literal pieces
    and of pieces known to be free of it. *)
Ltac solve_free :=
  norm_str;
  repeat first
    [ assumption
    | apply Forall_nil_2
    | apply Forall_app; split
    | apply Forall_cons; split
    | done ].

(** X13.  Inline emphasis in a line of otherwise unmarked text: the span
    between double asterisks is rendered as a bold element, the span between
    single asterisks as an italic element, and the line becomes one
    paragraph. *)
Theorem render_inline_emphasis (pre body post : pystr) :
  plain pre → plain body → plain post → body ≠ [] →
  convert_markdown_to_html (pre ++ str "**" ++ body ++ str "**" ++ post)
  = str "<p>" ++ pre ++ str "<strong>" ++ body ++ str "</strong>" ++ post ++ str "</p>" ∧
  convert_markdown_to_html (pre ++ str "*" ++ body ++ str "*" ++ post)
  = str "<p>" ++ pre ++ str "<em>" ++ body ++ str "</em>" ++ post ++ str "</p>".
Proof.
  intros Hpre Hbody Hpost Hne.
  destruct (plain_facts pre Hpre) as (P42 & P35 & P60 & P10).
  destruct (plain_facts body Hbody) as (B42 & B35 & B60 & B10).
  destruct (plain_facts post Hpost) as (Q42 & Q35 & Q60 & Q10).
  assert (Bem : Forall (λ c, c ≠ 10 ∧ c ≠ 42) body).
  { apply Forall_forall. intros c Hc.
    split; [by eapply (proj1 (Forall_forall _ _) B10)|by eapply (proj1 (Forall_forall _ _) B42)]. }
  unfold convert_markdown_to_html, convert_paragraphs, drop_empty_paragraphs, mark_paragraphs.
  unfold convert_headers.
  change (str "###") with (35 :: [35; 35]). change (str "##") with (35 :: [35]).
  change (str "#") with (35 :: []). split.
  - rewrite (re_sub_identity (header_re (35 :: [35; 35]) _) 35 _ (header_needs_head 35 _ _))
      by solve_free.
    rewrite (re_sub_identity (header_re (35 :: [35]) _) 35 _ (header_needs_head 35 _ _))
      by solve_free.
    rewrite (re_sub_identity (header_re (35 :: []) _) 35 _ (header_needs_head 35 _ _))
      by solve_free.
    unfold convert_bold. change (str "**") with (42 :: [42]).
    rewrite (emphasis_first 42 [42] (str "strong") pre body post P42 Hne Bem).
    rewrite (re_sub_identity _ 42 post (emphasis_needs_head 42 [42] _) Q42).
    unfold convert_italic.
    rewrite (re_sub_identity _ 42 _ (emphasis_needs_head 42 [] _)) by solve_free.
    rewrite (replace_identity 10 [] _) by solve_free.
    rewrite (replace_absent (str "<br><br>")) by solve_absent.
    rewrite (replace_absent (str "<p></p>"))
      by (destruct pre, body, post; try done; heads; solve_absent).
    rewrite (replace_absent (str "<p><br></p>"))
      by (destruct pre, body, post; try done; heads; solve_absent).
    by rewrite <- !app_assoc.
  - rewrite (re_sub_identity (header_re (35 :: [35; 35]) _) 35 _ (header_needs_head 35 _ _))
      by solve_free.
    rewrite (re_sub_identity (header_re (35 :: [35]) _) 35 _ (header_needs_head 35 _ _))
      by solve_free.
    rewrite (re_sub_identity (header_re (35 :: []) _) 35 _ (header_needs_head 35 _ _))
      by solve_free.
    unfold convert_bold.
    rewrite (emphasis_absent (str "**"))
      by (destruct pre, body, post; try done; heads; solve_absent).
    unfold convert_italic. change (str "*") with (42 :: []).
    rewrite (emphasis_first 42 [] (str "em") pre body post P42 Hne Bem).
    rewrite (re_sub_identity _ 42 post (emphasis_needs_head 42 [] _) Q42).
    rewrite (replace_identity 10 [] _) by solve_free.
    rewrite (replace_absent (str "<br><br>")) by solve_absent.
    rewrite (replace_absent (str "<p></p>"))
      by (destruct pre, body, post; try done; heads; solve_absent).
    rewrite (replace_absent (str "<p><br></p>"))
      by (destruct pre, body, post; try done; heads; solve_absent).
    by rewrite <- !app_assoc.
Qed.

(** A paragraph pass on text without newline in which no paragraph pattern
    occurs only wraps the text. *)
Lemma convert_paragraphs_wrap (s : pystr) :
  Forall (λ c, c ≠ 10) s →
  contains (str "<br><br>") s = false →
  contains (str "<p></p>") (str "<p>" ++ s ++ str "</p>") = false →
  contains (str "<p><br></p>") (str "<p>" ++ s ++ str "</p>") = false →
  convert_paragraphs s = str "<p>" ++ s ++ str "</p>".
Proof.
  intros Hnl H1 H2 H3. unfold convert_paragraphs, drop_empty_paragraphs, mark_paragraphs.
  rewrite (replace_identity 10 [] _ s Hnl).
  rewrite (replace_absent _ _ _ H1), (replace_absent _ _ _ H2).
  by rewrite (replace_absent _ _ _ H3).
Qed.

Lemma header_no_bol (hashes tag s : pystr) :
  Forall (λ c, c ≠ 10) s → re_sub_go (header_re hashes tag) 0 false s = s.
Proof.
  induction 1 as [|c s Hc _ IH]; [done|].
  cbn [re_sub_go]. unfold header_re at 1. cbn [andb].
  destruct (N.eqb_spec c 10) as [->|_]; [done|]. by rewrite IH.
Qed.

Lemma dot_plus_greedy_line (line rest : pystr) :
  Forall (λ c, c ≠ 10) line → dot_plus_greedy line = line.
Proof.
  induction 1 as [|c s Hc _ IH]; [done|].
  cbn [dot_plus_greedy]. destruct (N.eqb_spec c 10) as [->|_]; [done|]. by rewrite IH.
Qed.

(** A header line at the start of the text, being its only line. *)
Lemma header_match (hashes tag line : pystr) :
  hashes ≠ [] → line ≠ [] → Forall (λ c, c ≠ 10) line →
  re_sub (header_re hashes tag) (hashes ++ str " " ++ line)
  = str "<" ++ tag ++ str ">" ++ line ++ str "</" ++ tag ++ str ">".
Proof.
  intros Hh Hne Hline. unfold re_sub.
  rewrite <- (app_nil_r (hashes ++ str " " ++ line)).
  rewrite (re_sub_go_match _ _ (hashes ++ str " " ++ line) []
             (str "<" ++ tag ++ str ">" ++ line ++ str "</" ++ tag ++ str ">")).
  - simpl. by rewrite app_nil_r.
  - by destruct hashes.
  - unfold header_re. rewrite app_nil_r, app_assoc. cbn [andb].
    rewrite startswith_app, drop_app_length, (dot_plus_greedy_line line [] Hline).
    destruct line as [|c line]; [done|]. do 2 f_equal.
    rewrite !length_app. simpl. lia.
Qed.

(** A single line that does not open with the header pattern is passed
    over. *)
Lemma header_miss (hashes tag : pystr) (c : N) (s : pystr) :
  startswith (hashes ++ str " ") (c :: s) = false →
  Forall (λ c, c ≠ 10) (c :: s) →
  re_sub (header_re hashes tag) (c :: s) = c :: s.
Proof.
  intros Hm Hnl. unfold re_sub. cbn [re_sub_go]. unfold header_re at 1.
  rewrite Hm. cbn [andb].
  apply Forall_cons in Hnl as [Hc Hs].
  destruct (N.eqb_spec c 10) as [->|_]; [done|]. by rewrite header_no_bol.
Qed.

Lemma bol_after_newline (bol : bool) (l : pystr) : bol_after bol (l ++ nl) = true.
Proof. unfold bol_after. by rewrite foldl_app. Qed.

Lemma bol_after_line (bol : bool) (c : N) (l : pystr) :
  Forall (λ c, c ≠ 10) (c :: l) → bol_after bol (c :: l) = false.
Proof.
  unfold bol_after. revert bol c. induction l as [|d l IH]; intros bol c H.
  - apply Forall_cons in H as [Hc _]. simpl. by apply N.eqb_neq.
  - apply Forall_cons in H as [_ H]. simpl. by apply (IH (c =? 10)).
Qed.

(** Behind complete lines without hash sign a header pass starts afresh. *)
Lemma header_behind_line (hashes tag a rest : pystr) :
  Forall (λ c, c ≠ 35) a →
  re_sub (header_re (35 :: hashes) tag) (a ++ nl ++ rest)
  = a ++ nl ++ re_sub (header_re (35 :: hashes) tag) rest.
Proof.
  intros Ha. unfold re_sub. rewrite !app_assoc.
  rewrite (re_sub_go_copy _ 35 _ (a ++ nl) rest (header_needs_head 35 _ _)).
  - by rewrite bol_after_newline.
  - apply Forall_app. split; [done|]. by repeat constructor.
Qed.

(** Behind text on the same line nothing is a header. *)
Lemma header_mid_line (hashes tag a rest : pystr) :
  Forall (λ c, c ≠ 35) a → Forall (λ c, c ≠ 10) a → a ≠ [] →
  Forall (λ c, c ≠ 10) rest →
  re_sub (header_re (35 :: hashes) tag) (a ++ rest) = a ++ rest.
Proof.
  intros Ha Hnl Hne Hrest. unfold re_sub.
  rewrite (re_sub_go_copy _ 35 _ a rest (header_needs_head 35 _ _) Ha).
  destruct a as [|c a]; [done|].
  by rewrite (bol_after_line _ c a Hnl), header_no_bol.
Qed.

Lemma emphasis_passes_identity (s : pystr) :
  Forall (λ c, c ≠ 42) s → convert_italic (convert_bold s) = s.
Proof.
  intros Hs. unfold convert_bold, convert_italic.
  rewrite (re_sub_identity (emphasis_re (str "**") _) 42 s (emphasis_needs_head 42 _ _) Hs).
  apply (re_sub_identity (emphasis_re (str "*") _) 42 s (emphasis_needs_head 42 _ _) Hs).
Qed.

(** X14.  Headers are recognised at the start of a line only.  A line of
    one to three hash signs, a space and an unmarked title becomes a heading
    element of that level, which the paragraph pass then encloses in a
    paragraph; the same line behind a first line is converted too, with a
    line-break marker in front; behind text on the same line the hash sign
    stays as it is. *)
Theorem render_headers (title a : pystr) :
  plain title → title ≠ [] → plain a → a ≠ [] →
  convert_markdown_to_html (str "# " ++ title)
  = str "<p><h1>" ++ title ++ str "</h1></p>" ∧
  convert_markdown_to_html (str "## " ++ title)
  = str "<p><h2>" ++ title ++ str "</h2></p>" ∧
  convert_markdown_to_html (str "### " ++ title)
  = str "<p><h3>" ++ title ++ str "</h3></p>" ∧
  convert_markdown_to_html (a ++ nl ++ str "# " ++ title)
  = str "<p>" ++ a ++ str "<br><h1>" ++ title ++ str "</h1></p>" ∧
  convert_markdown_to_html (a ++ str "# " ++ title)
  = str "<p>" ++ a ++ str "# " ++ title ++ str "</p>".
Proof.
  intros Ht Htne Ha Hane.
  destruct (plain_facts title Ht) as (T42 & T35 & T60 & T10).
  destruct (plain_facts a Ha) as (A42 & A35 & A60 & A10).
  unfold convert_markdown_to_html, convert_headers.
  repeat split.
  - change (str "# " ++ title) with (35 :: 32 :: title).
    rewrite (header_miss (str "###")); [|reflexivity|solve_free].
    rewrite (header_miss (str "##")); [|reflexivity|solve_free].
    change (35 :: 32 :: title) with (str "#" ++ str " " ++ title).
    rewrite header_match by done.
    rewrite emphasis_passes_identity by solve_free.
    rewrite convert_paragraphs_wrap;
      [by rewrite <- !app_assoc | solve_free | solve_absent
      | destruct title; [done|]; heads; solve_absent
      | destruct title; [done|]; heads; solve_absent].
  - change (str "## " ++ title) with (35 :: 35 :: 32 :: title).
    rewrite (header_miss (str "###")); [|reflexivity|solve_free].
    change (35 :: 35 :: 32 :: title) with (str "##" ++ str " " ++ title).
    rewrite header_match by done.
    rewrite (re_sub_identity _ 35 _ (header_needs_head 35 [] _)) by solve_free.
    rewrite emphasis_passes_identity by solve_free.
    rewrite convert_paragraphs_wrap;
      [by rewrite <- !app_assoc | solve_free | solve_absent
      | destruct title; [done|]; heads; solve_absent
      | destruct title; [done|]; heads; solve_absent].
  - change (str "### " ++ title) with (str "###" ++ str " " ++ title).
    rewrite header_match by done.
    rewrite (re_sub_identity _ 35 _ (header_needs_head 35 [35] _)) by solve_free.
    rewrite (re_sub_identity _ 35 _ (header_needs_head 35 [] _)) by solve_free.
    rewrite emphasis_passes_identity by solve_free.
    rewrite convert_paragraphs_wrap;
      [by rewrite <- !app_assoc | solve_free | solve_absent
      | destruct title; [done|]; heads; solve_absent
      | destruct title; [done|]; heads; solve_absent].
  - change (str "###") with (35 :: [35; 35]). change (str "##") with (35 :: [35]).
    change (str "#") with (35 :: []).
    rewrite (header_behind_line [35; 35]) by done.
    change (str "# " ++ title) with (35 :: 32 :: title).
    rewrite (header_miss (35 :: [35; 35])); [|reflexivity|solve_free].
    rewrite (header_behind_line [35]) by done.
    rewrite (header_miss (35 :: [35])); [|reflexivity|solve_free].
    rewrite (header_behind_line []) by done.
    change (35 :: 32 :: title) with ([35] ++ str " " ++ title).
    rewrite header_match by done.
    rewrite emphasis_passes_identity by solve_free.
    unfold convert_paragraphs, drop_empty_paragraphs, mark_paragraphs.
    change (replace nl) with (replace [10]). rewrite replace_char, !flat_map_app.
    rewrite (subst_identity 10 _ a A10), (subst_identity 10 _ title T10).
    change (flat_map _ nl) with (str "<br>").
    rewrite !(subst_identity 10 _ (str _)) by solve_free.
    rewrite (replace_absent (str "<br><br>")) by solve_absent.
    rewrite (replace_absent (str "<p></p>"))
      by (destruct a, title; try done; heads; solve_absent).
    rewrite (replace_absent (str "<p><br></p>"))
      by (destruct a, title; try done; heads; solve_absent).
    by rewrite <- !app_assoc.
  - change (str "###") with (35 :: [35; 35]). change (str "##") with (35 :: [35]).
    change (str "#") with (35 :: []).
    rewrite !header_mid_line by (try done; solve_free).
    rewrite emphasis_passes_identity by solve_free.
    rewrite convert_paragraphs_wrap;
      [by rewrite <- !app_assoc | solve_free | solve_absent
      | destruct a; [done|]; heads; solve_absent
      | destruct a; [done|]; heads; solve_absent].
Qed.

(** ** Link extraction, continued *)


Lemma total_seconds_app (t1 t2 : list event) :
  total_seconds (t1 ++ t2) = (total_seconds t1 + total_seconds t2)%Z.
Proof.
  unfold total_seconds. induction t1 as [|e t1 IH]; simpl; [done|]. rewrite IH. lia.
Qed.

Lemma fill_requests_seconds (l : list article) :
  total_seconds (flat_map (λ a, [HttpGet (url a) 10; Sleep 1]) l)
  = (11 * Z.of_nat (length l))%Z.
Proof.
  induction l as [|a l IH]; [done|].
  cbn [flat_map]. rewrite total_seconds_app, IH. simpl length.
  unfold total_seconds at 1. simpl. lia.
Qed.

(** X16.  The timeouts and sleeps of [scrape_articles] add up to 10 seconds
    for the home page and 11 seconds for each returned article, hence to at
    most 120 seconds for the cap of 10 articles that the pipeline uses. *)
Theorem scrape_articles_seconds (w : world) (max_articles : Z) :
  total_seconds (io_events (trace (scrape_articles w max_articles)))
  = (10 + 11 * Z.of_nat (length (value (scrape_articles w max_articles))))%Z ∧
  (Z.of_nat (length (value (scrape_articles w max_articles))) ≤ Z.max 0 max_articles)%Z ∧
  (total_seconds (io_events (trace (scrape_articles w 10))) ≤ 120)%Z.
Proof.
  assert (Hsec : ∀ m, total_seconds (io_events (trace (scrape_articles w m)))
                      = (10 + 11 * Z.of_nat (length (value (scrape_articles w m))))%Z).
  { intros m. rewrite scrape_articles_value. unfold scrape_articles.
    rewrite !trace_bind, !io_events_app.
    destruct (http_get w base_url) as [e|doc].
    - rewrite !trace_bind. reflexivity.
    - rewrite mapM_fill_content_io, length_fmap.
      change (io_events (trace (emit (Call m_scrape_articles)))) with (@nil event).
      change (io_events (trace (emit (HttpGet base_url 10)))) with [HttpGet base_url 10].
      rewrite !total_seconds_app, fill_requests_seconds.
      unfold total_seconds. simpl. lia. }
  assert (Hlen : ∀ m, (Z.of_nat (length (value (scrape_articles w m))) ≤ Z.max 0 m)%Z).
  { intros m. rewrite scrape_articles_value.
    destruct (http_get w base_url) as [e|doc]; [simpl; lia|].
    rewrite length_fmap.
    by destruct (scan_links_inv m (find_all_with_attr (str "a") (str "href") doc))
      as (_ & _ & Hl & _). }
  split; [apply Hsec|]. split; [apply Hlen|].
  rewrite Hsec. specialize (Hlen 10%Z). lia.
Qed.

End Bot.

(** * Instances

    The theorems with hypotheses, applied to concrete inputs. *)

Lemma summarize_all_attempts_fail_witness :
  (∀ n, is_failure (chat_completion offline_world n) = true) ∧
  value (summarize_with_deepseek unchanged offline_world two_articles)
  = PyStr (create_fallback_summary unchanged (now offline_world fallback_date) two_articles) ∧
  io_events (trace (summarize_with_deepseek unchanged offline_world two_articles))
  = [HttpPost api_url (user_message two_articles) 30; Sleep 5;
     HttpPost api_url (user_message two_articles) 45; Sleep 5;
     HttpPost api_url (user_message two_articles) 60].
Proof.
  split; [intros n; reflexivity|].
  apply (summarize_all_attempts_fail unchanged offline_world two_articles).
  intros n. reflexivity.
Defined.

Lemma keyword_match_is_substring_witness :
  lower unchanged (str "Avengers Endgame review")
  = str "avengers end" ++ str "game" ++ str " review" ∧
  category_of unchanged (str "Avengers Endgame review") = str "Sports".
Proof.
  split; [reflexivity|].
  destruct (keyword_match_is_substring unchanged
              (str "Avengers Endgame review") (str "game")
              (str "avengers end") (str " review") eq_refl) as (_ & HS & _).
  apply HS.
  - apply list_elem_of_In. vm_compute. right. left. reflexivity.
  - intros H. apply any_in_rule in H. vm_compute in H. discriminate.
Defined.

Lemma run_without_articles_witness :
  value (scrape_articles unchanged offline_world 10) = [] ∧
  Forall (λ e, downstream e = false)
         (trace (run_daily_summary unchanged no_template some_scraper offline_world)).
Proof.
  split; [reflexivity|].
  apply (run_without_articles unchanged no_template some_scraper offline_world eq_refl).
Defined.

(** Instances of the further properties. *)

Lemma summarize_first_success_witness :
  chat_completion online_world 1 = ApiOk (PyStr (str "**Good** morning")) ∧
  value (summarize_with_deepseek unchanged online_world online_articles)
  = PyStr (str "**Good** morning").
Proof.
  split; [reflexivity|].
  refine (proj1 (summarize_first_success unchanged online_world online_articles 1
                   (PyStr (str "**Good** morning")) _ _ eq_refl)).
  - lia.
  - intros i Hi. assert (i = 0)%nat as -> by lia. reflexivity.
Defined.

Lemma category_ignores_ascii_case_witness :
  ascii_lower <$> str "OHIO STATE WINS" = ascii_lower <$> str "ohio state wins" ∧
  category_of unchanged (str "OHIO STATE WINS") = category_of unchanged (str "ohio state wins").
Proof.
  split; [reflexivity|].
  apply (category_ignores_ascii_case unchanged).
  - vm_compute. repeat constructor.
  - vm_compute. repeat constructor.
  - reflexivity.
Defined.


(** Shows that a literal is unmarked text on one line. *)
Ltac show_plain := vm_compute; repeat first [done | constructor].

Lemma render_plain_text_witness :
  plain (str "Good morning") ∧ plain (str "Columbus") ∧
  convert_markdown_to_html (str "Good morning" ++ nl ++ nl ++ str "Columbus")
  = str "<p>" ++ str "Good morning" ++ str "</p><p>" ++ str "Columbus" ++ str "</p>".
Proof.
  assert (Ha : plain (str "Good morning")) by show_plain.
  assert (Hb : plain (str "Columbus")) by show_plain.
  split; [exact Ha|]. split; [exact Hb|].
  refine (proj1 (proj2 (proj2 (render_plain_text (str "Good morning") (str "Columbus")
                                 Ha Hb _ _)))); done.
Defined.

Lemma emphasis_left_to_right_witness :
  convert_bold (str "a " ++ str "**" ++ str "b" ++ str "**" ++ str " c")
  = str "a " ++ str "<strong>" ++ str "b" ++ str "</strong>" ++ convert_bold (str " c").
Proof.
  refine (proj1 (emphasis_left_to_right (str "a ") (str "b") (str " c") _ _ _)).
  - show_plain.
  - done.
  - show_plain.
Defined.

Lemma render_inline_emphasis_witness :
  plain (str "Good ") ∧ plain (str "morning") ∧ plain (str ", Columbus") ∧
  convert_markdown_to_html (str "Good " ++ str "**" ++ str "morning" ++ str "**" ++ str ", Columbus")
  = str "<p>" ++ str "Good " ++ str "<strong>" ++ str "morning" ++ str "</strong>"
      ++ str ", Columbus" ++ str "</p>".
Proof.
  assert (H1 : plain (str "Good ")) by show_plain.
  assert (H2 : plain (str "morning")) by show_plain.
  assert (H3 : plain (str ", Columbus")) by show_plain.
  split; [exact H1|]. split; [exact H2|]. split; [exact H3|].
  refine (proj1 (render_inline_emphasis _ _ _ H1 H2 H3 _)). done.
Defined.

Lemma render_headers_witness :
  plain (str "Top stories") ∧ plain (str "Today") ∧
  convert_markdown_to_html (str "## " ++ str "Top stories")
  = str "<p><h2>" ++ str "Top stories" ++ str "</h2></p>".
Proof.
  assert (H1 : plain (str "Top stories")) by show_plain.
  assert (H2 : plain (str "Today")) by show_plain.
  split; [exact H1|]. split; [exact H2|].
  refine (proj1 (proj2 (render_headers (str "Top stories") (str "Today") H1 _ H2 _))); done.
Defined.

